(** * IEC 62056-21 meter reader: a shallow embedding of [IEC62056_21.py]

    The source is Python 2 (it uses [<>] and [bytes('/')[0]]), so

    - [self.ser.read()] returns a [str] of length 0 (the read timed out) or
      1; it is modelled as [option ascii];
    - a [bytearray] is a mutable sequence whose elements are *integers*;
      it is modelled as [list ascii], and indexing it gives a [PyInt];
    - [int / int] is floor division.

    The serial port is a scripted test double: the list of the results of the
    successive [read()] calls; once the script is used up the meter is silent
    and every further read times out.  Exceptions are values of [result];
    the generators [_read_data_message] and [read] are run to their end by a
    consumer, with fuel for the one loop that can poll for ever.

    The data model and the functions of the source come first, then the
    wording of the specification, then the properties, component by
    component. *)

From Stdlib Require Import String Ascii Bool Arith ZArith QArith Lia List.
Import ListNotations.

Close Scope Q_scope.
Open Scope nat_scope.
Open Scope list_scope.

(** ** Bytes and Python values *)

Definition bytes := list ascii.

Definition B (s : string) : bytes := list_ascii_of_string s.

Definition ord (c : ascii) : Z := Z.of_nat (nat_of_ascii c).

Definition CR : ascii := ascii_of_nat 13.
Definition LF : ascii := ascii_of_nat 10.

(** The class constants, lines 29-40. *)
Definition ctrl_StartChar : ascii := "/"%char.
Definition ctrl_EndChar : ascii := "!"%char.
Definition ctrl_EOF : ascii := ascii_of_nat 33.   (* '\x21' *)
Definition ctrl_CTX : ascii := ascii_of_nat 2.    (* start of text *)
Definition ctrl_ETX : ascii := ascii_of_nat 3.    (* end of text *)
Definition ctrl_ACK : ascii := ascii_of_nat 6.
Definition ctrl_NAK : ascii := ascii_of_nat 21.
Definition ctrl_SOH : ascii := ascii_of_nat 1.

Fixpoint bytes_eqb (a b : bytes) : bool :=
  match a, b with
  | [], [] => true
  | x :: a', y :: b' => Ascii.eqb x y && bytes_eqb a' b'
  | _, _ => false
  end.

(** The two kinds of Python object that the source compares with [==]:
    an element of a [bytearray] is an [int], a literal such as ['\\'] is a
    [str].  In Python 2 an [int] never equals a [str]. *)
Inductive pyobj : Type :=
| PyInt (n : Z)
| PyStr (s : bytes).

Definition py_eq (a b : pyobj) : bool :=
  match a, b with
  | PyInt x, PyInt y => Z.eqb x y
  | PyStr x, PyStr y => bytes_eqb x y
  | _, _ => false
  end.

(** [msg[i]] for a bytearray known to be long enough: the callers check
    [len(msg)] first; out of range is Python's [IndexError], which the
    callers below never reach. *)
Definition item (msg : bytes) (i : nat) : ascii := nth i msg Ascii.zero.

(** [msg[a:b]] *)
Definition slice (a b : nat) (msg : bytes) : bytes := firstn (b - a) (skipn a msg).

(** ** Exceptions *)

Inductive why : Type :=
| MissingStartCharacter     (* line 109 *)
| IdentificationTooShort5   (* line 112 *)
| IdentificationTooShort8   (* line 119 *)
| NoSTX                     (* line 152 *)
| NoETX                     (* line 167 *)
| UnableToParseDataset.     (* line 176 *)

(** The message text of [InvalidMessageError] is kept as the place that
    raised it and the bytes spliced into the text. *)
Inductive exn : Type :=
| TimeoutException
| InvalidMessageError (w : why) (got : bytes)
| IndexError            (* [b[0]] on an empty read *)
| ValueError            (* [int(c, 16)] on a non-hexadecimal character *)
| UnicodeDecodeError    (* [.decode('ascii')] on a byte above 127 *)
| ZeroDivisionError
| InvalidOperation.     (* [decimal.InvalidOperation] from [Decimal(str)] *)

Inductive result (A : Type) : Type :=
| Ok (a : A)
| Raise (e : exn).
Arguments Ok {A} a.
Arguments Raise {A} e.

Definition bind {A C : Type} (r : result A) (k : A -> result C) : result C :=
  match r with
  | Ok a => k a
  | Raise e => Raise e
  end.

Notation "x <- r ;; k" := (bind r (fun x => k))
  (at level 61, r at next level, right associativity).

(** ** The byte channel *)

Definition channel := list (option ascii).

(** [self.ser.read()]: one scripted result; silence once the script ends. *)
Definition ser_read (ch : channel) : option ascii * channel :=
  match ch with
  | [] => (None, [])
  | b :: ch' => (b, ch')
  end.

Definition feed (bs : bytes) : channel := map Some bs.

(** ** Line Reader: [_read_dataline], lines 195-218 *)

Definition eom : bytes := [CR; LF].

(** One turn of the body of the [while] loop, lines 204-209: the new match
    counter after byte [b]. *)
Definition eom_step (m : nat) (b : ascii) : nat :=
  if py_eq (PyStr [item eom m]) (PyStr [b]) then S m else 0.

(** [msg.pop(len(msg)-1)] *)
Definition pop_last (msg : bytes) : bytes := removelast msg.

(** The loop from line 202 on, with the counter [m] and the buffer [msg]. *)
Fixpoint dataline_loop (m : nat) (msg : bytes) (ch : channel) : bytes * channel :=
  match ch with
  | [] => (msg, [])
  | None :: ch' => (msg, ch')
  | Some b :: ch' =>
      let msg := msg ++ [b] in
      let m := eom_step m b in
      if Nat.eqb m (length eom)
      then (pop_last (pop_last msg), ch')
      else dataline_loop m msg ch'
  end.

Definition _read_dataline (msg : option bytes) (ch : channel) : bytes * channel :=
  let msg := match msg with None => [] | Some msg => msg end in
  dataline_loop 0 msg ch.

(** ** Identification Parser: [_read_identification_message], lines 96-142 *)

Record IdentificationMessage : Type := {
  manufacturers_identification : bytes;
  baudrate_identification : ascii;
  identification : bytes;
  protocol_mode : ascii;
  baudrate : Z
}.

(** [bs.decode('ascii')] *)
Definition decode_ascii (bs : bytes) : result bytes :=
  if forallb (fun c => nat_of_ascii c <? 128) bs then Ok bs
  else Raise UnicodeDecodeError.

(** [<] and [<=] on strings of one character. *)
Definition chr_lt (a b : ascii) : bool := nat_of_ascii a <? nat_of_ascii b.
Definition chr_le (a b : ascii) : bool := nat_of_ascii a <=? nat_of_ascii b.

(** [int(c, 16)] for a string of one character. *)
Definition int16 (c : ascii) : result nat :=
  let n := nat_of_ascii c in
  if (48 <=? n) && (n <=? 57) then Ok (n - 48)
  else if (65 <=? n) && (n <=? 70) then Ok (n - 55)
  else if (97 <=? n) && (n <=? 102) then Ok (n - 87)
  else Raise ValueError.

Definition baudrateselection : list Z :=
  [300; 600; 1200; 2400; 4800; 9600; 19200;
   0; 0; 0;
   600; 1200; 2400; 4800; 9600; 19200]%Z.

(** [baudrateselection[n]] *)
Definition select_baudrate (n : nat) : result Z :=
  match nth_error baudrateselection n with
  | Some r => Ok r
  | None => Raise IndexError
  end.

(** The test [msg[5] == '\\'] of lines 117 and 133: an element of the
    bytearray against a string. *)
Definition escape_test (msg : bytes) : bool :=
  py_eq (PyInt (ord (item msg 5))) (PyStr ["\"%char]).

(** Lines 128-134. *)
Definition derive_protocol_mode (msg : bytes) (c : ascii) : ascii :=
  let protocol_mode := "A"%char in
  let protocol_mode :=
    if chr_lt "A" c && chr_le c "I" then "B"%char else protocol_mode in
  let protocol_mode :=
    if chr_lt "0" c && chr_le c "9"
    then (let protocol_mode := "C"%char in
          if escape_test msg then "E"%char else protocol_mode)
    else protocol_mode in
  protocol_mode.

(** Lines 111-142: what is done with a line that starts with ['/']. *)
Definition decode_identification (msg : bytes) : result IdentificationMessage :=
  if length msg <? 6
  then Raise (InvalidMessageError IdentificationTooShort5 msg)
  else
    manufacturers <- decode_ascii (slice 1 4 msg) ;;
    let c := item msg 4 in
    ident <- (if escape_test msg
              then if length msg <? 8
                   then Raise (InvalidMessageError IdentificationTooShort8 msg)
                   else decode_ascii (slice 7 (length msg - 2) msg)
              else decode_ascii (slice 5 (length msg - 2) msg)) ;;
    let mode := derive_protocol_mode msg c in
    n <- int16 c ;;
    rate <- select_baudrate n ;;
    Ok {| manufacturers_identification := manufacturers;
          baudrate_identification := c;
          identification := ident;
          protocol_mode := mode;
          baudrate := rate |}.

(** The loop of lines 103-107: read until a read returns nothing. *)
Fixpoint drain (msg : bytes) (ch : channel) : bytes * channel :=
  match ch with
  | [] => (msg, [])
  | None :: ch' => (msg, ch')
  | Some b :: ch' => drain (msg ++ [b]) ch'
  end.

Definition _read_identification_message (ch : channel)
  : result IdentificationMessage * channel :=
  let (msg, ch) := _read_dataline None ch in
  match msg with
  | [] => (Raise TimeoutException, ch)
  | _ =>
      if negb (py_eq (PyInt (ord (item msg 0))) (PyInt (ord "/")))
      then let (msg, ch) := drain msg ch in
           (Raise (InvalidMessageError MissingStartCharacter msg), ch)
      else (decode_identification msg, ch)
  end.

(** ** Data Block Reader: [_read_data_message], lines 144-170

    The function is a generator.  It is run here the way a [for] loop runs
    it: [body] is applied to each line at the moment it is yielded, and an
    exception of [body] ends the run, leaving the rest of the channel
    unread.  The [while] loop of lines 155-160 polls a silent channel for
    ever, so it takes fuel: one unit for each test of the loop condition. *)

Inductive loop_exit : Type :=
| AtEOF               (* the loop condition became false *)
| Aborted (e : exn)   (* the consumer of a yielded line raised *)
| OutOfFuel.

Fixpoint line_or_eof {A : Type} (body : bytes -> result A) (fuel : nat)
    (ch : channel) : list A * loop_exit * channel :=
  match fuel with
  | O => ([], OutOfFuel, ch)
  | S fuel' =>
      let (b, ch) := ser_read ch in
      match b with
      | Some c =>
          if Ascii.eqb c ctrl_EOF then ([], AtEOF, ch)
          else
            let (dataline, ch) := _read_dataline (Some [c]) ch in
            match body dataline with
            | Ok a =>
                let '(ys, e, ch) := line_or_eof body fuel' ch in
                (a :: ys, e, ch)
            | Raise e => ([], Aborted e, ch)
            end
      | None => line_or_eof body fuel' ch
      end
  end.

(** Lines 162-170: what follows the end-of-block byte. *)
Definition read_trailer (ch : channel) : result unit * channel :=
  let (_, ch) := ser_read ch in
  let (_, ch) := ser_read ch in
  let (b, ch) := ser_read ch in
  match b with
  | None => (Raise IndexError, ch)
  | Some c =>
      if negb (Ascii.eqb c ctrl_ETX)
      then (Raise (InvalidMessageError NoETX [c]), ch)
      else let (_, ch) := ser_read ch in (Ok tt, ch)
  end.

(** How a run ends: the generator is exhausted, or an exception comes out
    of it (or of the consumer), or the fuel did not suffice. *)
Inductive ending : Type :=
| Finished (r : result unit)
| Unfinished.

Definition _read_data_message {A : Type} (body : bytes -> result A)
    (fuel : nat) (ch : channel) : list A * ending * channel :=
  let (b, ch) := ser_read ch in
  match b with
  | None => ([], Finished (Raise TimeoutException), ch)
  | Some c =>
      if negb (Ascii.eqb c ctrl_CTX)
      then ([], Finished (Raise (InvalidMessageError NoSTX [c])), ch)
      else
        let '(ys, e, ch) := line_or_eof body fuel ch in
        match e with
        | AtEOF => let (r, ch) := read_trailer ch in (ys, Finished r, ch)
        | Aborted x => (ys, Finished (Raise x), ch)
        | OutOfFuel => (ys, Unfinished, ch)
        end
  end.

(** The raw lines, as [list(self._read_data_message())] collects them. *)
Definition raw_lines (fuel : nat) (ch : channel) : list bytes * ending * channel :=
  _read_data_message (fun dataline => Ok dataline) fuel ch.

(** ** Regular expressions, as Python's [re] runs them

    A backtracking matcher in continuation-passing style: quantifiers are
    greedy, alternatives are tried in order, and the captures of an
    abandoned attempt are forgotten.  [k] is what has to match after [r].
    A repetition stops iterating on an iteration that consumes nothing. *)

Inductive regex : Type :=
| Lit (c : ascii)                    (* an escaped or ordinary character *)
| Dot                                (* [.]: any character but a newline *)
| Digit                              (* [\d] *)
| NoneOf (cs : list ascii)           (* [[^...]] *)
| Cat (r1 r2 : regex)
| Star (r : regex)                   (* [r*] *)
| Opt (r : regex)                    (* [r?] *)
| Group (name : option string) (r : regex).

(** [r+] *)
Definition Plus (r : regex) : regex := Cat r (Star r).

Definition is_digit (c : ascii) : bool :=
  (48 <=? nat_of_ascii c) && (nat_of_ascii c <=? 57).

Definition captures := list (string * bytes).

Definition one_char (p : ascii -> bool) (s : bytes) (caps : captures)
    (k : bytes -> captures -> option captures) : option captures :=
  match s with
  | c :: s' => if p c then k s' caps else None
  | [] => None
  end.

(** A greedy repetition of [step], at most [n] times, then [k]. *)
Fixpoint iterate
    (step : bytes -> captures -> (bytes -> captures -> option captures)
            -> option captures)
    (k : bytes -> captures -> option captures)
    (n : nat) (s : bytes) (caps : captures) {struct n} : option captures :=
  match n with
  | O => k s caps
  | S n' =>
      match step s caps
              (fun s' caps' =>
                 if length s' <? length s then iterate step k n' s' caps'
                 else None) with
      | Some m => Some m
      | None => k s caps
      end
  end.

Definition not_in (cs : list ascii) (c : ascii) : bool :=
  negb (existsb (Ascii.eqb c) cs).

Definition not_newline (c : ascii) : bool := negb (Ascii.eqb c LF).

Fixpoint rmatch (r : regex) (s : bytes) (caps : captures)
    (k : bytes -> captures -> option captures) {struct r} : option captures :=
  match r with
  | Lit c => one_char (Ascii.eqb c) s caps k
  | Dot => one_char not_newline s caps k
  | Digit => one_char is_digit s caps k
  | NoneOf cs => one_char (not_in cs) s caps k
  | Cat r1 r2 => rmatch r1 s caps (fun s' caps' => rmatch r2 s' caps' k)
  | Star r' => iterate (rmatch r') k (length s) s caps
  | Opt r' =>
      match rmatch r' s caps k with
      | Some m => Some m
      | None => k s caps
      end
  | Group name r' =>
      rmatch r' s caps
        (fun s' caps' =>
           let text := firstn (length s - length s') s in
           match name with
           | Some n => k s' ((n, text) :: caps')
           | None => k s' caps'
           end)
  end.

(** [pattern.match(s)]: a match that starts at the first character and may
    end anywhere. *)
Definition re_match (r : regex) (s : bytes) : option captures :=
  rmatch r s [] (fun _ caps => Some caps).

(** [m.group(name)]: [None] for a group that took no part in the match. *)
Fixpoint group (m : captures) (name : string) : option bytes :=
  match m with
  | [] => None
  | (n, text) :: m' => if String.eqb n name then Some text else group m' name
  end.

(** [str(x)] for [x] a group of a match. *)
Definition str (x : option bytes) : bytes :=
  match x with
  | Some text => text
  | None => B "None"
  end.

(** Line 24.  The pattern, with blanks between its pieces:

      (?P<ID> [^\(\)/!]* )  \(  (?P<Value> \d+ (.\d)+ )
      ( \* (?P<Unit> [^\(\)/!]+ ) )?  \)

    It is compiled without flags, so [\d] is an ASCII digit and [.] is any
    character but a line feed. *)
Definition dataset_regex : regex :=
  let excluded := ["("; ")"; "/"; "!"]%char in
  Cat (Group (Some "ID"%string) (Star (NoneOf excluded)))
 (Cat (Lit "(")
 (Cat (Group (Some "Value"%string)
         (Cat (Plus Digit) (Plus (Group None (Cat Dot Digit)))))
 (Cat (Opt (Group None
              (Cat (Lit "*") (Group (Some "Unit"%string) (Plus (NoneOf excluded))))))
      (Lit ")")))).


(** ** [Decimal(str)], the constructor of Python's [decimal] module

    A finite decimal is a sign, an integer coefficient and an exponent: its
    value is [coefficient * 10 ^ exponent], and nothing is rounded when it
    is built from a string. *)

Inductive Decimal : Type :=
| Finite (negative : bool) (coefficient : N) (exponent : Z)
| Infinity (negative : bool)
| NaN (negative : bool) (signaling : bool) (diagnostic : N).

Definition is_space (c : ascii) : bool :=
  let n := nat_of_ascii c in (n =? 32) || ((9 <=? n) && (n <=? 13)).

Fixpoint lstrip (s : bytes) : bytes :=
  match s with
  | c :: s' => if is_space c then lstrip s' else s
  | [] => []
  end.

(** [s.strip()] *)
Definition strip (s : bytes) : bytes := rev (lstrip (rev (lstrip s))).

(** The longest run of digits at the front, and what follows it. *)
Fixpoint span_digits (s : bytes) : bytes * bytes :=
  match s with
  | c :: s' =>
      if is_digit c
      then let (ds, rest) := span_digits s' in (c :: ds, rest)
      else ([], s)
  | [] => ([], [])
  end.

(** [int(ds)] for a run of digits; [int('')] does not occur. *)
Definition int_of_digits (ds : bytes) : N :=
  fold_left (fun acc d => (acc * 10 + (N_of_ascii d - 48))%N) ds 0%N.

Definition lower (c : ascii) : ascii :=
  let n := nat_of_ascii c in
  if (65 <=? n) && (n <=? 90) then ascii_of_nat (n + 32) else c.

(** The exponent part [(E[-+]?\d+)?] followed by the end of the string. *)
Definition scan_exponent (s : bytes) : option Z :=
  match s with
  | [] => Some 0%Z
  | e :: s' =>
      if Ascii.eqb (lower e) "e" then
        let (neg, s'') :=
          match s' with
          | "-"%char :: t => (true, t)
          | "+"%char :: t => (false, t)
          | _ => (false, s')
          end in
        match span_digits s'' with
        | ((_ :: _) as ds, []) =>
            let n := Z.of_N (int_of_digits ds) in
            Some (if neg then (- n)%Z else n)
        | _ => None
        end
      else None
  end.

(** The numeric alternative of the module's parser: digits, an optional
    fraction, an optional exponent, and at least one digit before the
    exponent. *)
Definition scan_number (negative : bool) (s : bytes) : option Decimal :=
  let (intpart, rest) := span_digits s in
  let (fracpart, rest) :=
    match rest with
    | "."%char :: t => span_digits t
    | _ => ([], rest)
    end in
  match intpart ++ fracpart with
  | [] => None
  | digits =>
      match scan_exponent rest with
      | Some e =>
          Some (Finite negative (int_of_digits digits)
                  (e - Z.of_nat (length fracpart)))
      | None => None
      end
  end.

(** The alternatives [Inf(inity)?] and [s?NaN\d*], letter case ignored. *)
Definition scan_special (negative : bool) (s : bytes) : option Decimal :=
  let low := map lower s in
  if bytes_eqb low (B "inf") || bytes_eqb low (B "infinity")
  then Some (Infinity negative)
  else
    let (signaling, t) :=
      match low with
      | "s"%char :: t => (true, t)
      | _ => (false, low)
      end in
    match t with
    | "n"%char :: "a"%char :: "n"%char :: diag =>
        match span_digits diag with
        | (ds, []) => Some (NaN negative signaling (int_of_digits ds))
        | _ => None
        end
    | _ => None
    end.

(** [Decimal(s)] under the default context, which traps a malformed
    literal as [InvalidOperation]. *)
Definition Decimal_of_str (s : bytes) : result Decimal :=
  let s := strip s in
  let (negative, body) :=
    match s with
    | "-"%char :: t => (true, t)
    | "+"%char :: t => (false, t)
    | _ => (false, s)
    end in
  match scan_number negative body with
  | Some d => Ok d
  | None =>
      match scan_special negative body with
      | Some d => Ok d
      | None => Raise InvalidOperation
      end
  end.

(** ** Dataset Parser: [_read_dataset_structure], lines 172-187 *)

(** The namedtuple [DataSetMessage] with its fields [id], [value], [unit]. *)
Record DataSetMessage : Type := {
  ds_id : bytes;
  ds_value : Decimal;
  ds_unit : option bytes
}.

Definition _read_dataset_structure (dataset : bytes) : result DataSetMessage :=
  match re_match dataset_regex dataset with
  | None => Raise (InvalidMessageError UnableToParseDataset dataset)
  | Some m =>
      let id := str (group m "ID") in
      value <- Decimal_of_str (str (group m "Value")) ;;
      let unit :=
        match group m "Unit" with
        | None => None
        | Some u => Some (str (Some u))
        end in
      Ok {| ds_id := id; ds_value := value; ds_unit := unit |}
  end.

(** ** Timing Controller and Session Engine: lines 54-94 and 189-193

    What the engine does to the port is recorded as a trace, oldest event
    first.  Seconds are rationals (the source computes them in binary
    floating point), so the trace gives the events of the code and their
    order, and the value of a sleep up to the rounding of the source.
    [time.time()] is an oracle: its [k]-th call returns [time k]. *)

Inductive event : Type :=
| SetBaudrate (rate : Z)       (* [self.ser.baudrate = rate] *)
| Write (data : bytes)         (* [self.ser.write(data)] *)
| Flush                        (* [self.ser.flush()] *)
| Sleep (seconds : Q).         (* [time.sleep(seconds)] *)

Record Serial : Type := {
  rx : channel;                (* what the meter will send *)
  ser_baudrate : Z;
  ser_bytesize : Z;
  ser_is_blocking : bool;
  ticks : nat;                 (* calls of [time.time()] so far *)
  trace : list event
}.

Definition min_reaction_time : Q := 2 # 10.

(** A computation on the port that may raise. *)
Definition M (A : Type) : Type := Serial -> result A * Serial.

Definition ret {A : Type} (a : A) : M A := fun s => (Ok a, s).

Definition mbind {A C : Type} (m : M A) (k : A -> M C) : M C :=
  fun s =>
    match m s with
    | (Ok a, s') => k a s'
    | (Raise e, s') => (Raise e, s')
    end.

Notation "x <~ m ;; k" := (mbind m (fun x => k))
  (at level 61, m at next level, right associativity).
Notation "m ;;; k" := (mbind m (fun _ => k))
  (at level 61, right associativity).

Definition lift {A : Type} (r : result A) : M A := fun s => (r, s).

Definition get : M Serial := fun s => (Ok s, s).

Definition emit (e : event) : M unit :=
  fun s =>
    (Ok tt, {| rx := rx s; ser_baudrate := ser_baudrate s;
               ser_bytesize := ser_bytesize s;
               ser_is_blocking := ser_is_blocking s;
               ticks := ticks s; trace := trace s ++ [e] |}).

(** [self.ser.baudrate = rate]; the port is taken to accept every rate. *)
Definition set_baudrate (rate : Z) : M unit :=
  fun s =>
    (Ok tt, {| rx := rx s; ser_baudrate := rate;
               ser_bytesize := ser_bytesize s;
               ser_is_blocking := ser_is_blocking s;
               ticks := ticks s; trace := trace s ++ [SetBaudrate rate] |}).

Definition set_is_blocking (flag : bool) : M unit :=
  fun s =>
    (Ok tt, {| rx := rx s; ser_baudrate := ser_baudrate s;
               ser_bytesize := ser_bytesize s;
               ser_is_blocking := flag;
               ticks := ticks s; trace := trace s |}).

Definition with_rx (s : Serial) (ch : channel) : Serial :=
  {| rx := ch; ser_baudrate := ser_baudrate s;
     ser_bytesize := ser_bytesize s;
     ser_is_blocking := ser_is_blocking s;
     ticks := ticks s; trace := trace s |}.

(** A reader of the channel, run on the port. *)
Definition receiving {A : Type} (f : channel -> result A * channel) : M A :=
  fun s => let (r, ch) := f (rx s) in (r, with_rx s ch).

Definition Qltb (a b : Q) : bool :=
  (Qnum a * Zpos (Qden b) <? Qnum b * Zpos (Qden a))%Z.

(** Lines 60 and 85:
    [n * 1.0 / (self.ser.baudrate / (self.ser.bytesize + 3))], where the
    inner division is a division of integers. *)
Definition expected_delay (n : nat) (baud bytesize : Z) : result Q :=
  let frames := (baud / (bytesize + 3))%Z in
  if (frames =? 0)%Z then Raise ZeroDivisionError
  else Ok (inject_Z (Z.of_nat n) * 1 / inject_Z frames)%Q.

Section Session.

Variable time : nat -> Q.

Definition now : M Q :=
  fun s =>
    (Ok (time (ticks s)),
     {| rx := rx s; ser_baudrate := ser_baudrate s;
        ser_bytesize := ser_bytesize s;
        ser_is_blocking := ser_is_blocking s;
        ticks := S (ticks s); trace := trace s |}).

Definition msg_signon : bytes := B "/?!" ++ [CR; LF].

(** Lines 55-73 of [read]. *)
Definition sign_on : M unit :=
  set_baudrate 300 ;;;
  s <~ get ;;
  expected <~ lift (expected_delay (length msg_signon)
                      (ser_baudrate s) (ser_bytesize s)) ;;
  start <~ now ;;
  emit (Write msg_signon) ;;;
  emit Flush ;;;
  finish <~ now ;;
  let actual_delay := (finish - start)%Q in
  if Qltb actual_delay expected
  then set_is_blocking false ;;; emit (Sleep (expected - actual_delay)%Q)
  else ret tt.

(** Lines 83-94. *)
Definition _write_blocking (data : bytes) : M unit :=
  s <~ get ;;
  expected <~ lift (expected_delay (length data)
                      (ser_baudrate s) (ser_bytesize s)) ;;
  emit (Write data) ;;;
  start <~ now ;;
  emit Flush ;;;
  finish <~ now ;;
  let delay := (expected - (finish - start))%Q in
  s <~ get ;;
  if negb (ser_is_blocking s) && Qltb 0 delay
  then emit (Sleep delay)
  else ret tt.

(** Lines 189-193. *)
Definition handshake_data (m : IdentificationMessage) : bytes :=
  [ascii_of_nat 6; "0"%char; baudrate_identification m; "0"%char;
   ascii_of_nat 13; ascii_of_nat 10].

Definition _write_handshake (m : IdentificationMessage) : M unit :=
  _write_blocking (handshake_data m) ;;;
  emit (Sleep min_reaction_time) ;;;
  set_baudrate (baudrate m).

(** Lines 75-78 of [read], after the sign-on. *)
Definition negotiate : M IdentificationMessage :=
  sign_on ;;;
  identification_message <~ receiving _read_identification_message ;;
  _write_handshake identification_message ;;;
  ret identification_message.

(** [read], run by a consumer that takes every record. *)
Definition read (fuel : nat) (s : Serial)
  : list DataSetMessage * ending * Serial :=
  match negotiate s with
  | (Raise e, s) => ([], Finished (Raise e), s)
  | (Ok _, s) =>
      let '(ys, e, ch) :=
        _read_data_message _read_dataset_structure fuel (rx s) in
      (ys, e, with_rx s ch)
  end.

End Session.

(** A freshly opened port, lines 42-46, with the meter's bytes queued. *)
Definition open_port (baudrate bytesize : Z) (ch : channel) : Serial :=
  {| rx := ch; ser_baudrate := baudrate; ser_bytesize := bytesize;
     ser_is_blocking := true; ticks := 0; trace := [] |}.

(** ** The wire format and the wording of the specification *)

(** A data block on the wire: STX, every line followed by CR LF, the
    end-of-block byte, two filler bytes, ETX and the block check character. *)
Definition encode_block (lines : list bytes) (f1 f2 bcc : ascii) : bytes :=
  [ctrl_CTX] ++ concat (map (fun l => l ++ [CR; LF]) lines)
  ++ [ctrl_EOF; f1; f2; ctrl_ETX; bcc].

(** The trailer as the specification words it: a delimiter, a second
    delimiter, the checksum-preceding byte, then the byte that has to be
    ETX, then the block check character. *)
Definition read_trailer_as_worded (ch : channel) : result unit * channel :=
  let (_, ch) := ser_read ch in
  let (_, ch) := ser_read ch in
  let (_, ch) := ser_read ch in
  let (b, ch) := ser_read ch in
  match b with
  | None => (Raise IndexError, ch)
  | Some c =>
      if negb (Ascii.eqb c ctrl_ETX)
      then (Raise (InvalidMessageError NoETX [c]), ch)
      else let (_, ch) := ser_read ch in (Ok tt, ch)
  end.

(** The duration as the specification words it:
    [byte_count * bits_per_frame / baud_rate] with
    [bits_per_frame = data_bits + 3]. *)
Definition expected_duration (byte_count : nat) (baud_rate data_bits : Z) : Q :=
  (inject_Z (Z.of_nat byte_count) * inject_Z (data_bits + 3) / inject_Z baud_rate)%Q.

(** The line terminator as the specification words it: CR LF stands at the
    tail of the accumulated buffer. *)
Definition ends_with_eom (msg : bytes) : bool :=
  bytes_eqb (skipn (length msg - 2) msg) eom.

(** The end-of-block byte arrives at a line boundary of the wire: in what
    the meter sends after STX it is the first byte, or the byte after a
    CR LF. *)
Definition eob_arrives (wire : bytes) : Prop :=
  exists before after : bytes,
    wire = before ++ ctrl_EOF :: after
    /\ (before = [] \/ exists front, before = front ++ [CR; LF]).

(** A line that the framing carries unharmed: it is not empty, it does not
    start with the end-of-block byte, and no carriage return follows its
    first byte. *)
Definition plain_line (l : bytes) : Prop :=
  match l with
  | [] => False
  | c :: body => c <> ctrl_EOF /\ ~ In CR body
  end.

(** A dataset line written out from its parts: the identifier, the digits
    before and after the decimal point, and the unit if there is one. *)
Definition dataset_line (id ip fp : bytes) (unit : option bytes) : bytes :=
  id ++ "("%char :: ip ++ "."%char :: fp
  ++ match unit with
     | Some u => "*"%char :: u
     | None => []
     end
  ++ [")"%char].

(** The characters that the pattern allows in an identifier and a unit. *)
Definition id_char (c : ascii) : bool := not_in ["("; ")"; "/"; "!"]%char c.

(** A unit that the pattern takes as the unit: allowed characters, and a
    first character that is not a digit (a digit there would be taken into
    the value by the pair group). *)
Definition unit_ok (unit : option bytes) : Prop :=
  match unit with
  | None => True
  | Some u => forallb id_char u = true
              /\ match u with
                 | [] => False
                 | c :: _ => is_digit c = false
                 end
  end.

(** The parts of a dataset line that the code reads back: digits on both
    sides of the point, and an odd number of them after it. *)
Record dataset_parts : Type := {
  part_id : bytes;
  part_int : bytes;
  part_frac : bytes;
  part_unit : option bytes
}.

Definition line_of (p : dataset_parts) : bytes :=
  dataset_line (part_id p) (part_int p) (part_frac p) (part_unit p).

Definition parts_ok (p : dataset_parts) : Prop :=
  forallb id_char (part_id p) = true
  /\ part_int p <> []
  /\ forallb is_digit (part_int p) = true
  /\ forallb is_digit (part_frac p) = true
  /\ Nat.odd (length (part_frac p)) = true
  /\ unit_ok (part_unit p)
  /\ ~ In CR (part_id p)
  /\ match part_unit p with
     | Some u => ~ In CR u
     | None => True
     end.

(** The record with the value of the digits, exactly: the coefficient is
    the number that the digits spell and the exponent counts the fraction
    digits. *)
Definition record_of (p : dataset_parts) : DataSetMessage :=
  {| ds_id := part_id p;
     ds_value := Finite false (int_of_digits (part_int p ++ part_frac p))
                   (- Z.of_nat (length (part_frac p)));
     ds_unit := part_unit p |}.

(** The protocol mode as the rule of the specification gives it. *)
Definition mode_rule (c : ascii) : ascii :=
  if chr_lt "A" c && chr_le c "I" then "B"%char
  else if chr_lt "0" c && chr_le c "9" then "C"%char
  else "A"%char.

Definition is_sleep (e : event) : bool :=
  match e with
  | Sleep _ => true
  | _ => false
  end.

(** The rates that the trace sets on the port, in order. *)
Fixpoint baudrate_switches (tr : list event) : list Z :=
  match tr with
  | [] => []
  | SetBaudrate rate :: tr' => rate :: baudrate_switches tr'
  | _ :: tr' => baudrate_switches tr'
  end.

(** The scenario of the end-to-end test: the meter's identification line. *)
Definition scenario_identification : bytes := B "/XYZ5ABC123" ++ [CR; LF].

(** The bytes that a call of the Line Reader starts from. *)
Definition seed_bytes (seed : option bytes) : bytes :=
  match seed with
  | None => []
  | Some msg => msg
  end.

(** Bytes that [decode('ascii')] accepts. *)
Definition seven_bit (bs : bytes) : bool :=
  forallb (fun c => nat_of_ascii c <? 128) bs.

(** A hexadecimal digit, in either letter case. *)
Definition is_hex (c : ascii) : bool :=
  let n := nat_of_ascii c in
  ((48 <=? n) && (n <=? 57)) || ((65 <=? n) && (n <=? 70))
  || ((97 <=? n) && (n <=? 102)).

(** The counter is 1 only when the buffer ends with a carriage return. *)
Definition counter_agrees (m : nat) (msg : bytes) : Prop :=
  m = 0 \/ (m = 1 /\ exists front, msg = front ++ [CR]).

(** A dataset line whose value is written without a decimal point. *)
Definition integer_line (id ds : bytes) (unit : option bytes) : bytes :=
  id ++ "("%char :: ds
  ++ match unit with
     | Some u => "*"%char :: u
     | None => []
     end
  ++ [")"%char].

(** A sleep of the trace is a sleep for a positive time. *)
Definition positive_sleep (e : event) : Prop :=
  match e with
  | Sleep seconds => (0 < seconds)%Q
  | _ => True
  end.

(** * Properties *)

(** ** Line Reader *)

#[local] Arguments Ascii.eqb : simpl never.
#[local] Arguments nat_of_ascii : simpl never.

Lemma py_eq_chars (a b : ascii) :
  py_eq (PyStr [a]) (PyStr [b]) = Ascii.eqb a b.
Proof. simpl. apply andb_true_r. Qed.

Lemma eom_step_0 (b : ascii) :
  eom_step 0 b = if Ascii.eqb CR b then 1 else 0.
Proof. unfold eom_step. rewrite py_eq_chars. reflexivity. Qed.

Lemma eom_step_1 (b : ascii) :
  eom_step 1 b = if Ascii.eqb LF b then 2 else 0.
Proof. unfold eom_step. rewrite py_eq_chars. reflexivity. Qed.

Lemma eom_step_other (b : ascii) :
  b <> CR -> eom_step 0 b = 0.
Proof.
  intros Hb. rewrite eom_step_0.
  destruct (Ascii.eqb CR b) eqn:E; [|reflexivity].
  apply Ascii.eqb_eq in E. congruence.
Qed.

Lemma pop_last_snoc (msg : bytes) (b : ascii) : pop_last (msg ++ [b]) = msg.
Proof. unfold pop_last. apply removelast_last. Qed.

(** A line without a carriage return, followed by CR LF, is read whole and
    the terminator is dropped, whatever was seeded. *)
Lemma dataline_loop_plain (body : bytes) :
  forall (msg : bytes) (rest : channel),
    ~ In CR body ->
    dataline_loop 0 msg (feed body ++ Some CR :: Some LF :: rest)
    = (msg ++ body, rest).
Proof.
  induction body as [|b body IH]; intros msg rest Hcr.
  - simpl. rewrite app_nil_r.
    rewrite !pop_last_snoc. reflexivity.
  - simpl. rewrite eom_step_other by (intros ->; apply Hcr; left; reflexivity).
    simpl. rewrite IH by (intros H; apply Hcr; right; exact H).
    rewrite <- app_assoc. reflexivity.
Qed.

(** The reader never gives bytes back to the channel. *)
Lemma dataline_loop_consumes (ch : channel) :
  forall (m : nat) (msg : bytes),
    length (snd (dataline_loop m msg ch)) <= length ch.
Proof.
  induction ch as [|[b|] ch IH]; intros m msg; cbn [dataline_loop length snd];
    try lia.
  destruct (Nat.eqb (eom_step m b) (length eom)); cbn [snd].
  - lia.
  - specialize (IH (eom_step m b) (msg ++ [b])). lia.
Qed.

(** On a timeout the reader returns what it has, without raising. *)
Lemma dataline_loop_timeout (body : bytes) :
  forall (msg : bytes) (rest : channel),
    ~ In CR body ->
    dataline_loop 0 msg (feed body ++ None :: rest) = (msg ++ body, rest).
Proof.
  induction body as [|b body IH]; intros msg rest Hcr.
  - simpl. rewrite app_nil_r. reflexivity.
  - simpl. rewrite eom_step_other by (intros ->; apply Hcr; left; reflexivity).
    simpl. rewrite IH by (intros H; apply Hcr; right; exact H).
    rewrite <- app_assoc. reflexivity.
Qed.

(** After CR CR LF the reader is still waiting for a terminator: if
    nothing else arrives it returns the line with all three bytes. *)
Lemma dataline_loop_CR_CR_LF (body : bytes) :
  forall msg : bytes,
    ~ In CR body ->
    dataline_loop 0 msg (feed (body ++ [CR; CR; LF]))
    = (msg ++ body ++ [CR; CR; LF], []).
Proof.
  induction body as [|b body IH]; intros msg Hcr.
  - replace (msg ++ [] ++ [CR; CR; LF]) with (((msg ++ [CR]) ++ [CR]) ++ [LF])
      by (rewrite <- !app_assoc; reflexivity).
    reflexivity.
  - cbn [app feed map dataline_loop].
    rewrite eom_step_other by (intros ->; apply Hcr; left; reflexivity).
    cbn [Nat.eqb length eom].
    change (map Some (body ++ [CR; CR; LF])) with (feed (body ++ [CR; CR; LF])).
    rewrite IH by (intros H; apply Hcr; right; exact H).
    rewrite <- app_assoc. reflexivity.
Qed.

(** C4: the Line Reader is claimed to stop as soon as CR LF stands at the
    tail of the buffer, also after CR CR LF and when the CR is the seeded
    byte.  The rolling counter is reset by the second CR without looking at
    it again, and it starts at 0 whatever was seeded: on the bytes
    A CR CR LF the reader runs past the terminator into the timeout and
    returns all four bytes, and seeded with CR it does not see the LF that
    follows. *)
Theorem read_dataline_misses_terminator :
  _read_dataline None (feed (B "A" ++ [CR; CR; LF]))
    = (B "A" ++ [CR; CR; LF], [])
  /\ ends_with_eom (B "A" ++ [CR; CR; LF]) = true
  /\ _read_dataline (Some [CR]) (feed ([LF] ++ B "B" ++ [CR; LF]))
    = ([CR; LF] ++ B "B", [])
  /\ ends_with_eom [CR; LF] = true.
Proof. repeat split; reflexivity. Qed.

(** ** Data Block Reader *)

Lemma feed_app (a b : bytes) : feed (a ++ b) = feed a ++ feed b.
Proof. apply map_app. Qed.


Lemma read_trailer_never_times_out (ch : channel) :
  fst (read_trailer ch) <> Raise TimeoutException.
Proof.
  unfold read_trailer.
  destruct (ser_read ch) as [b1 ch1].
  destruct (ser_read ch1) as [b2 ch2].
  destruct (ser_read ch2) as [[c|] ch3]; cbn [fst]; try discriminate.
  destruct (negb (Ascii.eqb c ctrl_ETX)); cbn [fst]; try discriminate.
  destruct (ser_read ch3); cbn [fst]. discriminate.
Qed.

Lemma CTX_is_CTX : Ascii.eqb ctrl_CTX ctrl_CTX = true.
Proof. apply Ascii.eqb_refl. Qed.

(** What [raw_lines] does once the STX byte is consumed. *)
Lemma raw_lines_after_STX (fuel : nat) (ch : channel) :
  raw_lines fuel (Some ctrl_CTX :: ch) =
  let '(ys, e, ch') := line_or_eof (fun dataline => Ok dataline) fuel ch in
  match e with
  | AtEOF => let (r, ch'') := read_trailer ch' in (ys, Finished r, ch'')
  | Aborted x => (ys, Finished (Raise x), ch')
  | OutOfFuel => (ys, Unfinished, ch')
  end.
Proof.
  unfold raw_lines, _read_data_message. cbn [ser_read].
  rewrite CTX_is_CTX. reflexivity.
Qed.

(** Once the channel is exhausted the loop polls until it is stopped. *)
Lemma line_or_eof_exhausted {A : Type} (body : bytes -> result A) (fuel : nat) :
  line_or_eof body fuel [] = ([], OutOfFuel, []).
Proof.
  induction fuel as [|fuel IH]; [reflexivity|].
  cbn [line_or_eof ser_read]. exact IH.
Qed.

(** C10: the reading of lines is claimed to end if and only if the
    end-of-block byte arrives at a line boundary.  After STX the meter
    sends the line A with a doubled carriage return, A CR CR LF, and then
    the end-of-block byte, CR LF, ETX and the block check character: the
    end-of-block byte stands directly after a CR LF of the wire.  The
    Line Reader misses that terminator and runs on to the next CR LF, so
    the end-of-block byte ends up inside the first yielded line, ETX and
    the block check character are yielded as a second line, and the loop
    polls for ever: the read never ends, however long it is left running.
    With a single carriage return the same block is read to its end. *)
Theorem block_read_misses_end_of_block :
  let wire := B "A" ++ [CR; CR; LF; ctrl_EOF; CR; LF; ctrl_ETX; "U"%char] in
  eob_arrives wire
  /\ (forall fuel,
         snd (fst (raw_lines fuel (Some ctrl_CTX :: feed wire))) = Unfinished)
  /\ (forall fuel,
         raw_lines (S (S fuel)) (Some ctrl_CTX :: feed wire)
         = ([B "A" ++ [CR; CR; LF; ctrl_EOF]; [ctrl_ETX; "U"%char]],
            Unfinished, []))
  /\ raw_lines 2
       (Some ctrl_CTX
        :: feed (B "A" ++ [CR; LF; ctrl_EOF; CR; LF; ctrl_ETX; "U"%char]))
     = ([B "A"], Finished (Ok tt), []).
Proof.
  intros wire.
  assert (Hrun : forall fuel,
             raw_lines (S (S fuel)) (Some ctrl_CTX :: feed wire)
             = ([B "A" ++ [CR; CR; LF; ctrl_EOF]; [ctrl_ETX; "U"%char]],
                Unfinished, [])).
  { intros fuel. rewrite raw_lines_after_STX.
    assert (Htwo : line_or_eof (fun dataline : bytes => Ok dataline)
                     (S (S fuel)) (feed wire)
                   = (let '(ys, e, ch) :=
                        (let '(ys', e', ch') :=
                           line_or_eof (fun dataline : bytes => Ok dataline)
                             fuel [] in
                         ([ctrl_ETX; "U"%char] :: ys', e', ch')) in
                      ((B "A" ++ [CR; CR; LF; ctrl_EOF]) :: ys, e, ch)))
      by reflexivity.
    rewrite Htwo, line_or_eof_exhausted. reflexivity. }
  split; [|split; [|split; [exact Hrun|reflexivity]]].
  - exists (B "A" ++ [CR; CR; LF]), [CR; LF; ctrl_ETX; "U"%char].
    split; [reflexivity|]. right. exists (B "A" ++ [CR]). reflexivity.
  - intros [|[|fuel]]; [reflexivity | reflexivity |].
    rewrite Hrun. reflexivity.
Qed.

Lemma read_trailer_four (d1 d2 bcc : option ascii) (e : ascii) (rest : channel) :
  read_trailer (d1 :: d2 :: Some e :: bcc :: rest) =
  if Ascii.eqb e ctrl_ETX then (Ok tt, rest)
  else (Raise (InvalidMessageError NoETX [e]), bcc :: rest).
Proof.
  unfold read_trailer. cbn [ser_read].
  destruct (Ascii.eqb e ctrl_ETX); reflexivity.
Qed.

(** C6, as the code has it: after the end-of-block byte the reader reads
    and discards two bytes, then reads a third byte, and it is this third
    byte that has to be ETX: any other byte there raises
    InvalidMessageError, before the block check character is read.  After
    an ETX exactly one more read is made, for the block check character,
    and its result takes no part in the outcome. *)
Theorem trailer_checks_third_byte :
  forall (A : Type) (body : bytes -> result A) (fuel : nat) (ch : channel)
         (ys : list A) (d1 d2 bcc : option ascii) (e : ascii) (rest : channel),
    line_or_eof body fuel ch = (ys, AtEOF, d1 :: d2 :: Some e :: bcc :: rest) ->
    _read_data_message body fuel (Some ctrl_CTX :: ch) =
    if Ascii.eqb e ctrl_ETX
    then (ys, Finished (Ok tt), rest)
    else (ys, Finished (Raise (InvalidMessageError NoETX [e])), bcc :: rest).
Proof.
  intros A body fuel ch ys d1 d2 bcc e rest Hloop.
  unfold _read_data_message. cbn [ser_read].
  rewrite CTX_is_CTX. cbn [negb]. rewrite Hloop, read_trailer_four.
  destruct (Ascii.eqb e ctrl_ETX); reflexivity.
Qed.

Lemma trailer_checks_third_byte_witness :
  let ch := feed (B "0.0(123)" ++ [CR; LF; ctrl_EOF; CR; LF; ctrl_ETX; "U"%char]) in
  line_or_eof (fun dataline => Ok dataline) 2 ch
    = ([B "0.0(123)"], AtEOF, feed [CR; LF; ctrl_ETX; "U"%char])
  /\ _read_data_message (fun dataline => Ok dataline) 2 (Some ctrl_CTX :: ch)
    = ([B "0.0(123)"], Finished (Ok tt), []).
Proof.
  intros ch. split; [reflexivity|].
  apply (trailer_checks_third_byte bytes (fun dataline => Ok dataline) 2 ch
           [B "0.0(123)"] (Some CR) (Some LF) (Some "U"%char) ctrl_ETX []).
  reflexivity.
Defined.

(** C6 as stated fails: with a checksum-preceding byte between the two
    delimiters and the ETX, the wording accepts the trailer, and the code
    raises InvalidMessageError on the third byte and leaves ETX and the
    block check character unread; on the trailer of the wire format, two
    bytes and then ETX and the block check character, the code completes
    and the wording takes the block check character for the ETX. *)
Lemma trailer_as_worded_differs :
  let five := feed [CR; LF; "*"%char; ctrl_ETX; "U"%char] in
  let four := feed [CR; LF; ctrl_ETX; "U"%char] in
  read_trailer_as_worded five = (Ok tt, [])
  /\ read_trailer five
     = (Raise (InvalidMessageError NoETX ["*"%char]), feed [ctrl_ETX; "U"%char])
  /\ read_trailer four = (Ok tt, [])
  /\ read_trailer_as_worded four
     = (Raise (InvalidMessageError NoETX ["U"%char]), []).
Proof. repeat split; reflexivity. Qed.

(** ** Dataset Parser *)

Section Greedy.

(** What a greedy repetition does when nothing has to be given back. *)

Variable step : bytes -> captures -> (bytes -> captures -> option captures)
                -> option captures.
Variable k : bytes -> captures -> option captures.

Lemma iterate_chars (p : ascii -> bool) (post : bytes) (caps m : captures) :
  (forall s c k', step s c k' = one_char p s c k') ->
  match post with
  | [] => True
  | c :: _ => p c = false
  end ->
  k post caps = Some m ->
  forall (pre : bytes) (n : nat),
    forallb p pre = true ->
    length pre <= n ->
    iterate step k n (pre ++ post) caps = Some m.
Proof.
  intros Hstep Hpost Hk.
  induction pre as [|x pre IH]; intros n Hpre Hn.
  - destruct n as [|n]; [exact Hk|].
    cbn [app iterate]. rewrite Hstep.
    destruct post as [|c post]; cbn [one_char]; [exact Hk|].
    rewrite Hpost. exact Hk.
  - destruct n as [|n]; [simpl in Hn; lia|].
    cbn [forallb] in Hpre. apply andb_prop in Hpre. destruct Hpre as [Hx Hpre].
    cbn [app iterate]. rewrite Hstep. cbn [one_char]. rewrite Hx.
    replace (length (pre ++ post) <? length (x :: pre ++ post)) with true
      by (symmetry; apply Nat.ltb_lt; simpl; lia).
    rewrite IH by (auto; simpl in Hn; lia). reflexivity.
Qed.

Lemma iterate_pairs (p q : ascii -> bool) (post : bytes) (caps m : captures) :
  (forall s c k',
      step s c k' = one_char p s c (fun s1 c1 => one_char q s1 c1 k')) ->
  match post with
  | c1 :: c2 :: _ => p c1 && q c2 = false
  | _ => True
  end ->
  k post caps = Some m ->
  forall (n : nat) (pre : bytes),
    forallb (fun c => p c && q c) pre = true ->
    Nat.even (length pre) = true ->
    length pre <= n ->
    iterate step k n (pre ++ post) caps = Some m.
Proof.
  intros Hstep Hpost Hk.
  assert (Hstop : forall n, iterate step k n post caps = Some m).
  { intros [|n]; [exact Hk|]. cbn [iterate]. rewrite Hstep.
    destruct post as [|c1 [|c2 post]]; cbn [one_char]; try exact Hk.
    - destruct (p c1); exact Hk.
    - destruct (p c1); [|exact Hk]. destruct (q c2); [discriminate|exact Hk]. }
  induction n as [|n IH]; intros pre Hpre Heven Hn.
  - destruct pre; [apply Hstop|simpl in Hn; lia].
  - destruct pre as [|x [|y pre]]; [apply Hstop|discriminate|].
    cbn [forallb] in Hpre.
    apply andb_prop in Hpre. destruct Hpre as [Hx Hpre].
    apply andb_prop in Hpre. destruct Hpre as [Hy Hpre].
    apply andb_prop in Hx. destruct Hx as [Hx _].
    apply andb_prop in Hy. destruct Hy as [_ Hy].
    cbn [app iterate]. rewrite Hstep. cbn [one_char]. rewrite Hx, Hy.
    replace (length (pre ++ post) <? length (x :: y :: pre ++ post)) with true
      by (symmetry; apply Nat.ltb_lt; simpl; lia).
    rewrite IH; [reflexivity|exact Hpre|exact Heven|simpl in Hn; lia].
Qed.

End Greedy.

Lemma firstn_prefix {X : Type} (pre post : list X) :
  firstn (length (pre ++ post) - length post) (pre ++ post) = pre.
Proof.
  rewrite length_app, Nat.add_sub.
  rewrite firstn_app, Nat.sub_diag, firstn_all. cbn. apply app_nil_r.
Qed.

Lemma digit_not_newline (c : ascii) : is_digit c = true -> not_newline c = true.
Proof.
  intros H. unfold not_newline.
  destruct (Ascii.eqb_spec c LF) as [->|_]; [discriminate H|reflexivity].
Qed.

Lemma forallb_digit_pairs (l : bytes) :
  forallb is_digit l = true ->
  forallb (fun c => not_newline c && is_digit c) l = true.
Proof.
  induction l as [|c l IH]; [reflexivity|].
  cbn [forallb]. intros H. apply andb_prop in H. destruct H as [Hc Hl].
  rewrite (digit_not_newline c Hc), Hc, (IH Hl). reflexivity.
Qed.

Lemma re_match_dataset_line (id ip fp : bytes) (unit : option bytes) :
  forallb id_char id = true ->
  ip <> [] ->
  forallb is_digit ip = true ->
  forallb is_digit fp = true ->
  Nat.odd (length fp) = true ->
  unit_ok unit ->
  re_match dataset_regex (dataset_line id ip fp unit)
  = Some (match unit with
          | Some u => [("Unit"%string, u)]
          | None => []
          end ++ [("Value"%string, ip ++ "."%char :: fp); ("ID"%string, id)]).
Proof.
  intros Hid Hip Hipd Hfpd Hodd Hunit.
  unfold re_match, dataset_regex, Plus, dataset_line.
  cbn [rmatch].
  eapply iterate_chars with (p := id_char);
    [reflexivity | reflexivity | | exact Hid | rewrite length_app; lia].
  cbn [one_char]. rewrite Ascii.eqb_refl. rewrite firstn_prefix.
  destruct ip as [|d ip]; [congruence|].
  cbn [forallb] in Hipd. apply andb_prop in Hipd. destruct Hipd as [Hd Hipd].
  cbn [app one_char]. rewrite Hd.
  eapply iterate_chars with (p := is_digit);
    [reflexivity | reflexivity | | exact Hipd | rewrite length_app; lia].
  destruct fp as [|f fp]; [discriminate Hodd|].
  cbn [forallb] in Hfpd. apply andb_prop in Hfpd. destruct Hfpd as [Hf Hfpd].
  cbn [app one_char]. rewrite Hf.
  change (not_newline ".") with true. cbv iota.
  set (post := match unit with Some u => "*"%char :: u | None => [] end ++ [")"%char]).
  replace (d :: ip ++ "."%char :: f :: fp ++ post)
    with ((d :: ip ++ "."%char :: f :: fp) ++ post)
    by (cbn [app]; rewrite <- app_assoc; reflexivity).
  eapply iterate_pairs with (p := not_newline) (q := is_digit);
    [reflexivity | | | apply forallb_digit_pairs; exact Hfpd
     | cbn [length] in Hodd; rewrite Nat.odd_succ in Hodd; exact Hodd
     | rewrite length_app; lia].
  - subst post. destruct unit as [[|u1 u]|]; cbn [app]; try exact I.
    + destruct Hunit as [_ []].
    + destruct Hunit as [_ Hu1]. rewrite Hu1. apply andb_false_r.
  - rewrite firstn_prefix. subst post.
    destruct unit as [[|u1 u]|]; cbn [app one_char].
    + destruct Hunit as [_ []].
    + destruct Hunit as [Hu _].
      cbn [forallb] in Hu. apply andb_prop in Hu. destruct Hu as [Hu1 Hu].
      rewrite Ascii.eqb_refl.
      change (not_in ["("%char; ")"%char; "/"%char; "!"%char]) with id_char.
      rewrite Hu1.
      erewrite iterate_chars with (p := id_char) (post := [")"%char]);
        [reflexivity | reflexivity | reflexivity | | exact Hu
         | rewrite length_app; lia].
      cbn [one_char]. rewrite Ascii.eqb_refl.
      change (u1 :: u ++ [")"%char]) with ((u1 :: u) ++ [")"%char]).
      rewrite firstn_prefix. reflexivity.
    + reflexivity.
Qed.

(** *** [Decimal] on a number with a decimal point *)

Lemma digit_not_space (c : ascii) : is_digit c = true -> is_space c = false.
Proof.
  unfold is_digit, is_space. intros H.
  apply andb_prop in H. destruct H as [H1 H2].
  apply Nat.leb_le in H1. apply Nat.leb_le in H2.
  destruct (Nat.eqb_spec (nat_of_ascii c) 32) as [E|_]; [lia|].
  destruct (Nat.leb_spec 9 (nat_of_ascii c)); [|reflexivity].
  destruct (Nat.leb_spec (nat_of_ascii c) 13); [lia|reflexivity].
Qed.

Lemma lstrip_digit (c : ascii) (s : bytes) :
  is_digit c = true -> lstrip (c :: s) = c :: s.
Proof. intros H. cbn [lstrip]. rewrite (digit_not_space c H). reflexivity. Qed.

Lemma strip_digits_around (c z : ascii) (s : bytes) :
  is_digit c = true -> is_digit z = true ->
  strip (c :: s ++ [z]) = c :: s ++ [z].
Proof.
  intros Hc Hz. unfold strip. rewrite (lstrip_digit c _ Hc).
  change (c :: s ++ [z]) with ((c :: s) ++ [z]).
  rewrite rev_unit, (lstrip_digit z _ Hz).
  rewrite <- rev_unit. apply rev_involutive.
Qed.

Lemma span_digits_all (ds rest : bytes) :
  forallb is_digit ds = true ->
  match rest with
  | [] => True
  | c :: _ => is_digit c = false
  end ->
  span_digits (ds ++ rest) = (ds, rest).
Proof.
  intros Hds Hrest. induction ds as [|d ds IH].
  - destruct rest as [|c rest]; [reflexivity|].
    cbn [app span_digits]. rewrite Hrest. reflexivity.
  - cbn [forallb] in Hds. apply andb_prop in Hds. destruct Hds as [Hd Hds].
    cbn [app span_digits]. rewrite Hd, (IH Hds). reflexivity.
Qed.

Lemma scan_number_point (ip fp : bytes) :
  ip <> [] ->
  forallb is_digit ip = true ->
  forallb is_digit fp = true ->
  scan_number false (ip ++ "."%char :: fp)
  = Some (Finite false (int_of_digits (ip ++ fp)) (- Z.of_nat (length fp))).
Proof.
  intros Hne Hip Hfp. unfold scan_number.
  rewrite (span_digits_all ip ("."%char :: fp) Hip) by reflexivity.
  rewrite <- (app_nil_r fp) at 1.
  rewrite (span_digits_all fp [] Hfp) by exact I.
  destruct ip as [|d ip]; [congruence|].
  cbn [app scan_exponent]. reflexivity.
Qed.

Lemma sign_of_digit (c : ascii) (s : bytes) :
  is_digit c = true ->
  match c :: s with
  | "-"%char :: t => (true, t)
  | "+"%char :: t => (false, t)
  | _ => (false, c :: s)
  end = (false, c :: s).
Proof.
  intros H.
  destruct c as [[] [] [] [] [] [] [] []]; try reflexivity; discriminate H.
Qed.

Lemma Decimal_of_point_number (ip fp : bytes) :
  ip <> [] -> fp <> [] ->
  forallb is_digit ip = true ->
  forallb is_digit fp = true ->
  Decimal_of_str (ip ++ "."%char :: fp)
  = Ok (Finite false (int_of_digits (ip ++ fp)) (- Z.of_nat (length fp))).
Proof.
  intros Hine Hfne Hip Hfp.
  pose proof (scan_number_point ip fp Hine Hip Hfp) as Hscan.
  destruct ip as [|d ip]; [congruence|].
  destruct (exists_last Hfne) as [fp0 [z Hz]].
  assert (Hd : is_digit d = true).
  { cbn [forallb] in Hip. apply andb_prop in Hip. tauto. }
  assert (Hzd : is_digit z = true).
  { rewrite Hz, forallb_app in Hfp. apply andb_prop in Hfp.
    destruct Hfp as [_ Hfp]. cbn [forallb] in Hfp.
    apply andb_prop in Hfp. tauto. }
  unfold Decimal_of_str.
  assert (Hstrip : strip ((d :: ip) ++ "."%char :: fp) = (d :: ip) ++ "."%char :: fp).
  { rewrite Hz. cbn [app].
    replace (ip ++ "."%char :: fp0 ++ [z]) with ((ip ++ "."%char :: fp0) ++ [z])
      by (rewrite <- app_assoc; reflexivity).
    apply strip_digits_around; assumption. }
  rewrite Hstrip. cbn [app].
  rewrite (sign_of_digit d _ Hd).
  cbn [app] in Hscan. rewrite Hscan. reflexivity.
Qed.

Lemma groups_of_dataset_line (id ip fp : bytes) (unit : option bytes) :
  forallb id_char id = true ->
  ip <> [] ->
  forallb is_digit ip = true ->
  forallb is_digit fp = true ->
  Nat.odd (length fp) = true ->
  unit_ok unit ->
  exists m : captures,
    re_match dataset_regex (dataset_line id ip fp unit) = Some m
    /\ group m "ID" = Some id
    /\ group m "Value" = Some (ip ++ "."%char :: fp)
    /\ group m "Unit" = unit.
Proof.
  intros Hid Hine Hip Hfp Hodd Hunit.
  eexists. split.
  - apply re_match_dataset_line; assumption.
  - destruct unit; repeat split; reflexivity.
Qed.

(** The Dataset Parser on a line with digits, a point and an odd number of
    fraction digits: the record has the identifier, the unit and the value
    digit for digit. *)
Theorem dataset_parser_accepts (p : dataset_parts) :
  parts_ok p -> _read_dataset_structure (line_of p) = Ok (record_of p).
Proof.
  destruct p as [id ip fp unit].
  unfold parts_ok, line_of, record_of. cbn [part_id part_int part_frac part_unit].
  intros [Hid [Hine [Hip [Hfp [Hodd [Hunit _]]]]]].
  assert (Hfne : fp <> []) by (intros ->; discriminate Hodd).
  destruct (groups_of_dataset_line id ip fp unit Hid Hine Hip Hfp Hodd Hunit)
    as [m [Hm [Hg1 [Hg2 Hg3]]]].
  unfold _read_dataset_structure. rewrite Hm, Hg1, Hg2, Hg3. cbn [str].
  rewrite (Decimal_of_point_number ip fp Hine Hfne Hip Hfp). cbn [bind].
  destruct unit; reflexivity.
Qed.

(** *** Lines that the pattern rejects *)

Section GreedyFails.

Variable step : bytes -> captures -> (bytes -> captures -> option captures)
                -> option captures.
Variable k : bytes -> captures -> option captures.

(** A repetition of single characters fails when what follows fails at
    every place where the repetition can stop. *)
Lemma iterate_chars_none (p : ascii -> bool) (caps : captures) :
  (forall s c k', step s c k' = one_char p s c k') ->
  forall (n : nat) (s : bytes),
    (forall pre post, s = pre ++ post -> forallb p pre = true ->
                      k post caps = None) ->
    iterate step k n s caps = None.
Proof.
  intros Hstep. induction n as [|n IH]; intros s Hk.
  - apply (Hk [] s); reflexivity.
  - cbn [iterate]. rewrite Hstep.
    assert (Hhere : k s caps = None) by (apply (Hk [] s); reflexivity).
    destruct s as [|c s]; cbn [one_char]; [exact Hhere|].
    destruct (p c) eqn:Hc; [|exact Hhere].
    replace (length s <? length (c :: s)) with true
      by (symmetry; apply Nat.ltb_lt; simpl; lia).
    rewrite IH; [exact Hhere|].
    intros pre post -> Hpre. apply (Hk (c :: pre) post); [reflexivity|].
    cbn [forallb]. rewrite Hc, Hpre. reflexivity.
Qed.

(** The pair group of the value, repeated over the digits around the
    decimal point.  [tail] is what follows the fraction digits; it does not
    start with a digit.  The repetition can only stop in front of a digit
    or of the point, and there [k] fails. *)

Variable tail : bytes.

Hypothesis step_is_pair :
  forall s c k',
    step s c k' = one_char not_newline s c (fun s1 c1 => one_char is_digit s1 c1 k').

Hypothesis tail_no_digit :
  match tail with
  | [] => True
  | c :: _ => is_digit c = false
  end.

Hypothesis k_fails :
  forall (c : ascii) (s : bytes) (caps : captures),
    is_digit c = true \/ c = "."%char -> k (c :: s) caps = None.

Lemma pairs_fail_in_fraction (caps : captures) :
  forall (n : nat) (fs : bytes),
    forallb is_digit fs = true ->
    Nat.odd (length fs) = true ->
    iterate step k n (fs ++ tail) caps = None.
Proof.
  induction n as [|n IH]; intros fs Hfs Hodd;
    (destruct fs as [|f1 fs]; [discriminate Hodd|]);
    cbn [forallb] in Hfs; apply andb_prop in Hfs; destruct Hfs as [Hf1 Hfs];
    assert (Hhere : k ((f1 :: fs) ++ tail) caps = None)
      by (apply k_fails; left; exact Hf1).
  - exact Hhere.
  - cbn [iterate]. rewrite step_is_pair. cbn [app one_char].
    rewrite (digit_not_newline f1 Hf1).
    destruct fs as [|f2 fs].
    + cbn [app]. destruct tail as [|t tl]; cbn [one_char]; [exact Hhere|].
      rewrite tail_no_digit. exact Hhere.
    + cbn [forallb] in Hfs. apply andb_prop in Hfs. destruct Hfs as [Hf2 Hfs].
      cbn [app one_char]. rewrite Hf2.
      replace (length (fs ++ tail) <? length (f1 :: f2 :: fs ++ tail)) with true
        by (symmetry; apply Nat.ltb_lt; simpl; lia).
      rewrite IH; [exact Hhere|exact Hfs|].
      cbn [length] in Hodd. rewrite Nat.odd_succ, Nat.even_succ in Hodd.
      exact Hodd.
Qed.

Lemma k_fails_before_point (ds rest : bytes) (caps : captures) :
  forallb is_digit ds = true ->
  k (ds ++ "."%char :: rest) caps = None.
Proof.
  intros Hds. destruct ds as [|d ds]; cbn [app].
  - apply k_fails. right. reflexivity.
  - cbn [forallb] in Hds. apply andb_prop in Hds.
    apply k_fails. left. tauto.
Qed.

Lemma pairs_fail_before_point (fp : bytes) (caps : captures) :
  forallb is_digit fp = true ->
  Nat.even (length fp) = true ->
  forall (n : nat) (ds : bytes),
    forallb is_digit ds = true ->
    iterate step k n (ds ++ "."%char :: fp ++ tail) caps = None.
Proof.
  intros Hfp Heven. induction n as [|n IH]; intros ds Hds;
    pose proof (k_fails_before_point ds (fp ++ tail) caps Hds) as Hhere.
  - exact Hhere.
  - cbn [iterate]. rewrite step_is_pair.
    destruct ds as [|d1 [|d2 ds]]; cbn [app one_char] in *.
    + change (not_newline ".") with true. cbv iota.
      destruct fp as [|f0 fp]; cbn [app one_char].
      * destruct tail as [|t tl]; cbn [one_char]; [exact Hhere|].
        rewrite tail_no_digit. exact Hhere.
      * cbn [forallb] in Hfp. apply andb_prop in Hfp. destruct Hfp as [Hf0 Hfp].
        rewrite Hf0.
        replace (length (fp ++ tail) <? length ("."%char :: f0 :: fp ++ tail))
          with true by (symmetry; apply Nat.ltb_lt; simpl; lia).
        rewrite pairs_fail_in_fraction; [exact Hhere|exact Hfp|].
        cbn [length] in Heven. rewrite Nat.even_succ in Heven. exact Heven.
    + cbn [forallb] in Hds. apply andb_prop in Hds. destruct Hds as [Hd1 _].
      rewrite (digit_not_newline d1 Hd1).
      change (is_digit ".") with false. cbv iota. exact Hhere.
    + cbn [forallb] in Hds. apply andb_prop in Hds. destruct Hds as [Hd1 Hds].
      apply andb_prop in Hds. destruct Hds as [Hd2 Hds].
      rewrite (digit_not_newline d1 Hd1), Hd2.
      replace (length (ds ++ "."%char :: fp ++ tail)
               <? length (d1 :: d2 :: ds ++ "."%char :: fp ++ tail))
        with true by (symmetry; apply Nat.ltb_lt; simpl; lia).
      rewrite IH; [exact Hhere|exact Hds].
Qed.

(** One pair and then the repetition, as the pattern has it for [+]. *)
Lemma first_pair_fails (fp : bytes) (caps : captures) :
  forallb is_digit fp = true ->
  Nat.even (length fp) = true ->
  forall ds : bytes,
    forallb is_digit ds = true ->
    one_char not_newline (ds ++ "."%char :: fp ++ tail) caps
      (fun s1 c1 =>
         one_char is_digit s1 c1
           (fun s' caps' => iterate step k (length s') s' caps'))
    = None.
Proof.
  intros Hfp Heven ds Hds.
  destruct ds as [|d1 [|d2 ds]]; cbn [app one_char].
  - change (not_newline ".") with true. cbv iota.
    destruct fp as [|f0 fp]; cbn [app one_char].
    + destruct tail as [|t tl]; cbn [one_char]; [reflexivity|].
      rewrite tail_no_digit. reflexivity.
    + cbn [forallb] in Hfp. apply andb_prop in Hfp. destruct Hfp as [Hf0 Hfp].
      rewrite Hf0. apply pairs_fail_in_fraction; [exact Hfp|].
      cbn [length] in Heven. rewrite Nat.even_succ in Heven. exact Heven.
  - cbn [forallb] in Hds. apply andb_prop in Hds. destruct Hds as [Hd1 _].
    rewrite (digit_not_newline d1 Hd1).
    change (is_digit ".") with false. reflexivity.
  - cbn [forallb] in Hds. apply andb_prop in Hds. destruct Hds as [Hd1 Hds].
    apply andb_prop in Hds. destruct Hds as [Hd2 Hds].
    rewrite (digit_not_newline d1 Hd1), Hd2.
    apply pairs_fail_before_point; assumption.
Qed.

End GreedyFails.

Lemma split_at_stop (p : ascii -> bool) (c : ascii) (rest : bytes) :
  p c = false ->
  forall pre post body : bytes,
    pre ++ post = body ++ c :: rest ->
    forallb p pre = true ->
    exists mid, body = pre ++ mid /\ post = mid ++ c :: rest.
Proof.
  intros Hc. induction pre as [|x pre IH]; intros post body Heq Hpre.
  - exists body. split; [reflexivity|exact Heq].
  - cbn [forallb] in Hpre. apply andb_prop in Hpre. destruct Hpre as [Hx Hpre].
    destruct body as [|y body]; cbn [app] in Heq; inversion Heq; subst.
    + rewrite Hc in Hx. discriminate Hx.
    + destruct (IH post body H1 Hpre) as [mid [-> ->]].
      exists mid. split; reflexivity.
Qed.

Lemma digit_or_point_is_no_mark (c : ascii) :
  is_digit c = true \/ c = "."%char ->
  Ascii.eqb "*" c = false /\ Ascii.eqb ")" c = false.
Proof.
  intros H. split.
  - destruct (Ascii.eqb_spec "*"%char c) as [<-|_]; [|reflexivity].
    destruct H as [H|H]; discriminate H.
  - destruct (Ascii.eqb_spec ")"%char c) as [<-|_]; [|reflexivity].
    destruct H as [H|H]; discriminate H.
Qed.

(** The pattern finds no match on a line whose value has an even number of
    fraction digits, whatever the unit. *)
Lemma re_match_even_fraction (id ip fp : bytes) (unit : option bytes) :
  forallb id_char id = true ->
  forallb is_digit ip = true ->
  forallb is_digit fp = true ->
  Nat.even (length fp) = true ->
  re_match dataset_regex (dataset_line id ip fp unit) = None.
Proof.
  intros Hid Hip Hfp Heven.
  unfold re_match, dataset_regex, Plus, dataset_line.
  cbn [rmatch].
  set (tail := match unit with Some u => "*"%char :: u | None => [] end
               ++ [")"%char]).
  apply iterate_chars_none with (p := id_char); [reflexivity|].
  intros pre post Hsplit Hpre.
  destruct (split_at_stop id_char "(" (ip ++ "."%char :: fp ++ tail) eq_refl
              pre post id (eq_sym Hsplit) Hpre) as [mid [Hmid ->]].
  destruct mid as [|c mid]; cbn [app one_char].
  - rewrite Ascii.eqb_refl.
    destruct ip as [|d ip]; cbn [app one_char]; [reflexivity|].
    cbn [forallb] in Hip. apply andb_prop in Hip. destruct Hip as [Hd Hip].
    rewrite Hd.
    apply iterate_chars_none with (p := is_digit); [reflexivity|].
    intros pre2 post2 Hsplit2 Hpre2.
    destruct (split_at_stop is_digit "." (fp ++ tail) eq_refl
                pre2 post2 ip (eq_sym Hsplit2) Hpre2) as [mid2 [Hmid2 ->]].
    assert (Hmid2d : forallb is_digit mid2 = true).
    { rewrite Hmid2, forallb_app in Hip. apply andb_prop in Hip. tauto. }
    apply first_pair_fails with (tail := tail); try assumption.
    + reflexivity.
    + subst tail. destruct unit; reflexivity.
    + intros c s caps Hc. cbn [one_char].
      destruct (digit_or_point_is_no_mark c Hc) as [-> ->]. reflexivity.
  - assert (Hc : id_char c = true).
    { rewrite Hmid, forallb_app in Hid. apply andb_prop in Hid.
      destruct Hid as [_ Hid]. cbn [forallb] in Hid.
      apply andb_prop in Hid. tauto. }
    destruct (Ascii.eqb_spec "("%char c) as [<-|_]; [discriminate Hc|reflexivity].
Qed.

(** X11: the Dataset Parser rejects every line whose value has an even
    number of fraction digits, whatever the identifier and the unit: it
    raises InvalidMessageError with the line. *)
Theorem dataset_parser_rejects_even_fraction (id ip fp : bytes) (unit : option bytes) :
  forallb id_char id = true ->
  forallb is_digit ip = true ->
  forallb is_digit fp = true ->
  Nat.even (length fp) = true ->
  _read_dataset_structure (dataset_line id ip fp unit)
  = Raise (InvalidMessageError UnableToParseDataset (dataset_line id ip fp unit)).
Proof.
  intros Hid Hip Hfp Heven. unfold _read_dataset_structure.
  rewrite (re_match_even_fraction id ip fp unit Hid Hip Hfp Heven).
  reflexivity.
Qed.

(** C3: the parser is claimed to fail with InvalidMessageError, and in no
    other way, on every line that is not ID(VALUE[*UNIT]) with a decimal
    VALUE.  The dot of the pattern is not escaped, so the line (1x2)
    matches with the value 1x2, and Decimal raises InvalidOperation on it;
    the same pattern rejects the decimal value 0015.55.  The line BAD[[[
    does fail with InvalidMessageError. *)
Theorem dataset_parser_raises_InvalidOperation :
  _read_dataset_structure (B "(1x2)") = Raise InvalidOperation
  /\ option_map (fun m => group m "Value") (re_match dataset_regex (B "(1x2)"))
     = Some (Some (B "1x2"))
  /\ _read_dataset_structure (B "1.8.0(0015.55*kWh)")
     = Raise (InvalidMessageError UnableToParseDataset (B "1.8.0(0015.55*kWh)"))
  /\ _read_dataset_structure (B "BAD[[[")
     = Raise (InvalidMessageError UnableToParseDataset (B "BAD[[[")).
Proof. repeat split; vm_compute; reflexivity. Qed.

(** ** Data Block Reader and Dataset Parser together *)

Lemma read_dataline_plain (c : ascii) (body : bytes) (rest : channel) :
  ~ In CR body ->
  _read_dataline (Some [c]) (feed body ++ Some CR :: Some LF :: rest)
  = (c :: body, rest).
Proof.
  intros Hcr. unfold _read_dataline.
  rewrite dataline_loop_plain by exact Hcr. reflexivity.
Qed.

(** Plain lines that the consumer accepts are yielded one for one, in
    order. *)
Lemma line_or_eof_block {A : Type} (body : bytes -> result A) :
  forall (lines : list bytes) (recs : list A) (fuel : nat) (rest : channel),
    Forall2 (fun l r => plain_line l /\ body l = Ok r) lines recs ->
    length lines < fuel ->
    line_or_eof body fuel
      (feed (concat (map (fun l => l ++ [CR; LF]) lines)) ++ Some ctrl_EOF :: rest)
    = (recs, AtEOF, rest).
Proof.
  intros lines recs fuel rest Hall. revert fuel.
  induction Hall as [|l r lines recs [Hplain Hbody] _ IH]; intros fuel Hfuel.
  - destruct fuel as [|fuel]; [simpl in Hfuel; lia|].
    cbn [map concat feed app line_or_eof ser_read].
    rewrite Ascii.eqb_refl. reflexivity.
  - destruct fuel as [|fuel]; [simpl in Hfuel; lia|].
    destruct l as [|c l]; [contradiction|].
    destruct Hplain as [Hc Hcr].
    cbn [map concat]. rewrite feed_app, feed_app.
    cbn [feed map app line_or_eof ser_read].
    apply Ascii.eqb_neq in Hc. rewrite Hc.
    rewrite <- !app_assoc. cbn [app].
    change (map Some l) with (feed l).
    rewrite read_dataline_plain by exact Hcr.
    rewrite Hbody.
    change (map Some (concat (map (fun l0 => l0 ++ [CR; LF]) lines)))
      with (feed (concat (map (fun l0 => l0 ++ [CR; LF]) lines))).
    rewrite IH by (simpl in Hfuel; lia). reflexivity.
Qed.

(** The round trip, for the lines that the Dataset Parser accepts: a block
    encoded from plain lines gives back one record for each line, in
    order, and the whole block is consumed. *)
Theorem block_roundtrip_accepted_lines :
  forall (lines : list bytes) (recs : list DataSetMessage) (f1 f2 bcc : ascii)
         (fuel : nat),
    Forall2 (fun l r => plain_line l /\ _read_dataset_structure l = Ok r)
      lines recs ->
    length lines < fuel ->
    _read_data_message _read_dataset_structure fuel
      (feed (encode_block lines f1 f2 bcc))
    = (recs, Finished (Ok tt), []).
Proof.
  intros lines recs f1 f2 bcc fuel Hall Hfuel.
  unfold encode_block. rewrite feed_app. cbn [feed map app].
  rewrite feed_app. cbn [feed map].
  change (map Some (concat (map (fun l => l ++ [CR; LF]) lines)))
    with (feed (concat (map (fun l => l ++ [CR; LF]) lines))).
  unfold _read_data_message. cbn [ser_read].
  rewrite CTX_is_CTX. cbn [negb].
  rewrite (line_or_eof_block _ lines recs fuel _ Hall Hfuel).
  rewrite read_trailer_four, Ascii.eqb_refl. reflexivity.
Qed.

Lemma digits_without (c : ascii) (ds : bytes) :
  is_digit c = false -> forallb is_digit ds = true -> ~ In c ds.
Proof.
  intros Hc Hds Hin.
  rewrite forallb_forall in Hds. rewrite (Hds c Hin) in Hc. discriminate Hc.
Qed.

Lemma plain_line_of (p : dataset_parts) : parts_ok p -> plain_line (line_of p).
Proof.
  destruct p as [id ip fp unit].
  unfold parts_ok, line_of, dataset_line.
  cbn [part_id part_int part_frac part_unit].
  intros [Hid [_ [Hip [Hfp [_ [_ [Hcr Hucr]]]]]]].
  assert (Hall : ~ In CR (id ++ "("%char :: ip ++ "."%char :: fp
                          ++ match unit with
                             | Some u => "*"%char :: u
                             | None => []
                             end ++ [")"%char])).
  { rewrite in_app_iff. cbn [In]. rewrite in_app_iff. cbn [In].
    rewrite !in_app_iff. cbn [In].
    pose proof (digits_without CR ip eq_refl Hip).
    pose proof (digits_without CR fp eq_refl Hfp).
    destruct unit as [u|]; cbn [In];
      intuition (try discriminate; try contradiction). }
  destruct id as [|c id]; cbn [app plain_line] in *.
  - split; [discriminate|]. intros H. apply Hall. right. exact H.
  - split.
    + intros ->. cbn [forallb] in Hid. discriminate Hid.
    + intros H. apply Hall. right. exact H.
Qed.

(** The round trip for lines with an odd number of fraction digits: a
    block of N such lines gives N records, in order, each with the
    identifier, the unit and the exact decimal value of its line, and the
    whole block is consumed. *)
Theorem roundtrip_odd_fraction :
  forall (parts : list dataset_parts) (f1 f2 bcc : ascii) (fuel : nat),
    Forall parts_ok parts ->
    length parts < fuel ->
    _read_data_message _read_dataset_structure fuel
      (feed (encode_block (map line_of parts) f1 f2 bcc))
    = (map record_of parts, Finished (Ok tt), []).
Proof.
  intros parts f1 f2 bcc fuel Hok Hfuel.
  apply block_roundtrip_accepted_lines; [|rewrite length_map; exact Hfuel].
  clear Hfuel. induction Hok as [|p parts Hp _ IH]; cbn [map]; constructor.
  - split; [apply plain_line_of | apply dataset_parser_accepts]; exact Hp.
  - exact IH.
Qed.

(** C1: the round trip is claimed for every block of well-formed dataset
    lines.  It holds for the specification's own line, whose value has
    three fraction digits and is kept digit for digit.  For a value with
    two fraction digits the pattern of line 24 finds no match, because its
    group (.\d)+ takes the characters after the first run of digits two by
    two: the block of the one line 1.8.0(0015.55*kWh) yields no record and
    the read ends with InvalidMessageError. *)
Theorem roundtrip_breaks_on_even_fraction :
  _read_data_message _read_dataset_structure 2
    (feed (encode_block [B "1.8.0(0015.557*kWh)"] CR LF "U"))
  = ([{| ds_id := B "1.8.0";
         ds_value := Finite false 15557 (-3);
         ds_unit := Some (B "kWh") |}],
     Finished (Ok tt), [])
  /\ _read_data_message _read_dataset_structure 2
       (feed (encode_block [B "1.8.0(0015.55*kWh)"] CR LF "U"))
     = ([],
        Finished (Raise (InvalidMessageError UnableToParseDataset
                           (B "1.8.0(0015.55*kWh)"))),
        feed [ctrl_EOF; CR; LF; ctrl_ETX; "U"%char])
  /\ Decimal_of_str (B "0015.55") = Ok (Finite false 1555 (-2)).
Proof. repeat split; vm_compute; reflexivity. Qed.

(** ** Identification Parser *)

Lemma escape_test_false (msg : bytes) : escape_test msg = false.
Proof. reflexivity. Qed.

Lemma ord_eqb (a b : ascii) : Z.eqb (ord a) (ord b) = Ascii.eqb a b.
Proof.
  unfold ord. destruct (Ascii.eqb_spec a b) as [->|Hne].
  - apply Z.eqb_refl.
  - apply Z.eqb_neq. intros H. apply Nat2Z.inj in H. apply Hne.
    rewrite <- (ascii_nat_embedding a), <- (ascii_nat_embedding b), H.
    reflexivity.
Qed.

Lemma derive_protocol_mode_rule (msg : bytes) (c : ascii) :
  derive_protocol_mode msg c = mode_rule c.
Proof.
  unfold derive_protocol_mode, mode_rule. rewrite escape_test_false.
  destruct (chr_lt "A" c && chr_le c "I") eqn:HB;
    destruct (chr_lt "0" c && chr_le c "9") eqn:HC; try reflexivity.
  exfalso. apply andb_prop in HB, HC. destruct HB as [HB _], HC as [_ HC].
  unfold chr_lt in HB. unfold chr_le in HC.
  apply Nat.ltb_lt in HB. apply Nat.leb_le in HC.
  change (nat_of_ascii "A") with 65 in HB.
  change (nat_of_ascii "9") with 57 in HC. lia.
Qed.

Lemma decode_identification_ok (msg : bytes) (m : IdentificationMessage) :
  decode_identification msg = Ok m ->
  protocol_mode m = mode_rule (baudrate_identification m)
  /\ baudrate_identification m = item msg 4
  /\ identification m = slice 5 (length msg - 2) msg
  /\ exists n, int16 (baudrate_identification m) = Ok n
               /\ nth_error baudrateselection n = Some (baudrate m).
Proof.
  unfold decode_identification. rewrite escape_test_false.
  destruct (length msg <? 6); [discriminate|].
  destruct (decode_ascii (slice 1 4 msg)) as [manufacturers|]; [|discriminate].
  cbn [bind].
  destruct (decode_ascii (slice 5 (length msg - 2) msg)) as [ident|] eqn:Hid;
    [|discriminate].
  cbn [bind].
  destruct (int16 (item msg 4)) as [n|] eqn:Hn; [|discriminate].
  cbn [bind]. unfold select_baudrate.
  destruct (nth_error baudrateselection n) as [rate|] eqn:Hrate; [|discriminate].
  cbn [bind]. intros H. inversion H; subst; clear H. cbn.
  rewrite derive_protocol_mode_rule.
  unfold decode_ascii in Hid.
  destruct (forallb _ _) in Hid; [|discriminate]. inversion Hid; subst.
  repeat split. exists n. split; assumption.
Qed.

Lemma read_identification_ok (ch ch' : channel) (m : IdentificationMessage) :
  _read_identification_message ch = (Ok m, ch') ->
  exists msg, _read_dataline None ch = (msg, ch')
              /\ item msg 0 = "/"%char
              /\ decode_identification msg = Ok m.
Proof.
  unfold _read_identification_message.
  destruct (_read_dataline None ch) as [msg ch1].
  destruct msg as [|c msg]; [discriminate|].
  cbn [py_eq]. rewrite ord_eqb.
  destruct (Ascii.eqb (item (c :: msg) 0) "/") eqn:Hc; cbn [negb].
  - intros H. inversion H; subst. exists (c :: msg).
    apply Ascii.eqb_eq in Hc. repeat split; assumption.
  - destruct (drain (c :: msg) ch1). discriminate.
Qed.






(** The drain loop takes every byte up to the first read that returns
    nothing, and that read with them. *)
Lemma drain_spec (ch : channel) :
  forall msg : bytes,
  exists (drained : bytes) (tail : channel),
    ch = feed drained ++ tail
    /\ (tail = [] \/ exists ch2, tail = None :: ch2)
    /\ drain msg ch = (msg ++ drained, tl tail).
Proof.
  induction ch as [|[b|] ch IH]; intros msg.
  - exists [], []. split; [reflexivity|]. split; [left; reflexivity|].
    simpl. rewrite app_nil_r. reflexivity.
  - destruct (IH (msg ++ [b])) as [drained [tail [Hch [Htail Hdrain]]]].
    exists (b :: drained), tail. split; [|split].
    + simpl. rewrite Hch. reflexivity.
    + exact Htail.
    + simpl. rewrite Hdrain, <- app_assoc. reflexivity.
  - exists [], (None :: ch). split; [reflexivity|].
    split; [right; exists ch; reflexivity|].
    simpl. rewrite app_nil_r. reflexivity.
Qed.

(** C5: identification parsing raises TimeoutException when the line read
    is empty; when the line is not empty and does not start with '/', it
    reads the channel up to the first read that returns nothing, and then
    raises InvalidMessageError; and when the line starts with '/' and is
    shorter than 6 bytes, it raises InvalidMessageError. *)
Theorem identification_failures :
  forall (ch ch1 : channel) (msg : bytes),
    _read_dataline None ch = (msg, ch1) ->
    (msg = [] ->
     _read_identification_message ch = (Raise TimeoutException, ch1))
    /\ (msg <> [] -> item msg 0 <> "/"%char ->
        exists (drained : bytes) (tail : channel),
          ch1 = feed drained ++ tail
          /\ (tail = [] \/ exists ch2, tail = None :: ch2)
          /\ _read_identification_message ch
             = (Raise (InvalidMessageError MissingStartCharacter (msg ++ drained)),
                tl tail))
    /\ (item msg 0 = "/"%char -> length msg < 6 ->
        _read_identification_message ch
        = (Raise (InvalidMessageError IdentificationTooShort5 msg), ch1)).
Proof.
  intros ch ch1 msg Hline. unfold _read_identification_message.
  rewrite Hline. split; [|split].
  - intros ->. reflexivity.
  - intros Hne Hstart. destruct msg as [|c msg]; [congruence|].
    cbn [py_eq]. rewrite ord_eqb.
    apply Ascii.eqb_neq in Hstart. rewrite Hstart. cbn [negb].
    destruct (drain_spec ch1 (c :: msg)) as [drained [tail [Hch [Htail Hdrain]]]].
    exists drained, tail. rewrite Hdrain. repeat split; assumption.
  - intros Hstart Hlen. destruct msg as [|c msg]; [discriminate Hstart|].
    cbn [py_eq]. rewrite ord_eqb, Hstart, Ascii.eqb_refl. cbn [negb].
    unfold decode_identification.
    destruct (Nat.ltb_spec (length (c :: msg)) 6) as [_|Hge]; [reflexivity|lia].
Qed.

Lemma identification_failures_witness :
  _read_identification_message [None; Some "x"%char]
    = (Raise TimeoutException, [Some "x"%char])
  /\ (exists (drained : bytes) (tail : channel),
         feed (B "stray") ++ [None; Some "x"%char] = feed drained ++ tail
         /\ (tail = [] \/ exists ch2, tail = None :: ch2)
         /\ _read_identification_message
              (feed (B "XYZ" ++ [CR; LF] ++ B "stray") ++ [None; Some "x"%char])
            = (Raise (InvalidMessageError MissingStartCharacter
                        (B "XYZ" ++ drained)),
               tl tail))
  /\ _read_identification_message (feed (B "/AB1" ++ [CR; LF]))
     = (Raise (InvalidMessageError IdentificationTooShort5 (B "/AB1")), []).
Proof.
  split; [|split].
  - apply (proj1 (identification_failures
                    [None; Some "x"%char] [Some "x"%char] [] eq_refl)).
    reflexivity.
  - apply (proj1 (proj2 (identification_failures
                    (feed (B "XYZ" ++ [CR; LF] ++ B "stray") ++ [None; Some "x"%char])
                    (feed (B "stray") ++ [None; Some "x"%char])
                    (B "XYZ") eq_refl))).
    + discriminate.
    + discriminate.
  - apply (proj2 (proj2 (identification_failures
                    (feed (B "/AB1" ++ [CR; LF])) [] (B "/AB1") eq_refl))).
    + reflexivity.
    + simpl. lia.
Defined.

(** C8: byte 5 is claimed to select the escape rule.  The test of lines
    117 and 133 compares an element of the bytearray, an integer, with the
    string of one backslash, and is false for every line.  The line
    /ABC5\2ID123 is decoded by the other branch, with the identification
    taken from byte 5 on and the mode C; the line /ABC5\2, shorter than 8
    bytes, is accepted. *)
Theorem escape_rule_is_dead :
  (forall msg, escape_test msg = false)
  /\ item (B "/ABC5\2ID123") 5 = "\"%char
  /\ decode_identification (B "/ABC5\2ID123")
     = Ok {| manufacturers_identification := B "ABC";
             baudrate_identification := "5";
             identification := B "\2ID1";
             protocol_mode := "C";
             baudrate := 9600 |}
  /\ slice 7 (length (B "/ABC5\2ID123") - 2) (B "/ABC5\2ID123") = B "ID1"
  /\ length (B "/ABC5\2") = 7
  /\ decode_identification (B "/ABC5\2")
     = Ok {| manufacturers_identification := B "ABC";
             baudrate_identification := "5";
             identification := [];
             protocol_mode := "C";
             baudrate := 9600 |}.
Proof. repeat split; reflexivity. Qed.

(** ** Timing Controller *)

(** Where the frame length divides the baud rate, the delay of the model,
    which computes seconds as exact rationals, is the duration of the
    specification. *)
Lemma expected_delay_exact (n : nat) (baud bytesize frames : Z) :
  (0 < frames)%Z -> (0 < bytesize + 3)%Z ->
  baud = (frames * (bytesize + 3))%Z ->
  exists q, expected_delay n baud bytesize = Ok q
            /\ (q == expected_duration n baud bytesize)%Q.
Proof.
  intros Hf Hb ->. unfold expected_delay, expected_duration.
  rewrite Z.div_mul by lia.
  destruct (Z.eqb_spec frames 0) as [E|_]; [lia|].
  eexists. split; [reflexivity|].
  rewrite inject_Z_mult. field.
  split; intros H;
    apply (eq_sym) in H; revert H; apply Qlt_not_eq;
    replace 0%Q with (inject_Z 0) by reflexivity; rewrite <- Zlt_Qlt; lia.
Qed.

(** At sign-on, a write that returns before the expected delay has passed
    marks the port as non-blocking, and the remainder is slept. *)
Lemma sign_on_detects_non_blocking (time : nat -> Q) (s : Serial) (q : Q) :
  expected_delay (length msg_signon) 300 (ser_bytesize s) = Ok q ->
  Qltb (time (S (ticks s)) - time (ticks s)) q = true ->
  exists s',
    sign_on time s = (Ok tt, s')
    /\ ser_is_blocking s' = false
    /\ trace s' = trace s ++ [SetBaudrate 300; Write msg_signon; Flush;
                              Sleep (q - (time (S (ticks s)) - time (ticks s)))].
Proof.
  intros Hq Hlt.
  unfold sign_on, mbind, set_baudrate, get, lift, now, emit, set_is_blocking, ret.
  cbn [ser_baudrate ser_bytesize ticks trace rx ser_is_blocking].
  rewrite Hq, Hlt. eexists. split; [reflexivity|].
  cbn [ser_is_blocking trace]. split; [reflexivity|].
  rewrite <- !app_assoc. reflexivity.
Qed.

(** At sign-on, a write that takes the expected delay or longer leaves the
    port marked as it was, and nothing is slept. *)
Lemma sign_on_keeps_blocking (time : nat -> Q) (s : Serial) (q : Q) :
  expected_delay (length msg_signon) 300 (ser_bytesize s) = Ok q ->
  Qltb (time (S (ticks s)) - time (ticks s)) q = false ->
  exists s',
    sign_on time s = (Ok tt, s')
    /\ ser_is_blocking s' = ser_is_blocking s
    /\ trace s' = trace s ++ [SetBaudrate 300; Write msg_signon; Flush].
Proof.
  intros Hq Hlt.
  unfold sign_on, mbind, set_baudrate, get, lift, now, emit, set_is_blocking, ret.
  cbn [ser_baudrate ser_bytesize ticks trace rx ser_is_blocking].
  rewrite Hq, Hlt. eexists. split; [reflexivity|].
  cbn [ser_is_blocking trace]. split; [reflexivity|].
  rewrite <- !app_assoc. reflexivity.
Qed.

(** Every later write on a port marked non-blocking sleeps what is left of
    its expected delay; on a port marked blocking it never sleeps. *)
Lemma write_blocking_trace (time : nat -> Q) (s : Serial) (data : bytes) (q : Q) :
  expected_delay (length data) (ser_baudrate s) (ser_bytesize s) = Ok q ->
  let delay := (q - (time (S (ticks s)) - time (ticks s)))%Q in
  exists s',
    _write_blocking time data s = (Ok tt, s')
    /\ ser_is_blocking s' = ser_is_blocking s
    /\ trace s' = trace s ++ [Write data; Flush]
                  ++ (if negb (ser_is_blocking s) && Qltb 0 delay
                      then [Sleep delay] else []).
Proof.
  intros Hq delay.
  unfold _write_blocking, mbind, get, lift, now, emit, ret.
  cbn [ser_baudrate ser_bytesize ticks trace rx ser_is_blocking].
  rewrite Hq. fold delay.
  destruct (negb (ser_is_blocking s) && Qltb 0 delay);
    eexists; (split; [reflexivity|]);
    cbn [ser_is_blocking trace]; (split; [reflexivity|]);
    rewrite <- ?app_assoc; reflexivity.
Qed.

(** C9: the expected duration is claimed to be
    byte_count * (data_bits + 3) / baud_rate for every frame size.  Line 60
    divides the baud rate by the frame length as integers first.  With the
    7 data bits of the default the quotient 300 / 10 is exact and the five
    bytes of the sign-on take 5 * 10 / 300 seconds; with 8 data bits
    300 / 11 is cut to 27, and the delay is 5 / 27 seconds instead of
    5 * 11 / 300. *)
Theorem expected_delay_truncates :
  expected_delay 5 300 8 = Ok (inject_Z 5 * 1 / inject_Z 27)%Q
  /\ ~ (inject_Z 5 * 1 / inject_Z 27 == expected_duration 5 300 8)%Q
  /\ (expected_duration 5 300 8 == 5 * 11 / 300)%Q
  /\ expected_delay 5 300 7 = Ok (inject_Z 5 * 1 / inject_Z 30)%Q
  /\ (inject_Z 5 * 1 / inject_Z 30 == 5 * 10 / 300)%Q.
Proof.
  repeat split; try reflexivity.
  intros H. vm_compute in H. discriminate H.
Qed.

(** ** Session Engine *)

(** Reading the data block leaves no event in the trace. *)
Lemma read_trace (time : nat -> Q) (fuel : nat) (s : Serial) :
  trace (snd (read time fuel s)) = trace (snd (negotiate time s)).
Proof.
  unfold read. destruct (negotiate time s) as [[m|e] s']; cbn [snd].
  - destruct (_read_data_message _read_dataset_structure fuel (rx s'))
      as [[ys e] ch]. reflexivity.
  - reflexivity.
Qed.

Lemma scenario_identified (rest : channel) :
  _read_identification_message (feed scenario_identification ++ rest)
  = (Ok {| manufacturers_identification := B "XYZ";
           baudrate_identification := "5";
           identification := B "ABC1";
           protocol_mode := "C";
           baudrate := 9600 |},
     rest).
Proof. reflexivity. Qed.

Ltac split_on_Qltb :=
  repeat match goal with
         | |- context [Qltb ?a ?b] => destruct (Qltb a b); cbn
         end.

Ltac give_sleeps :=
  first
    [ exists [], []; repeat split; reflexivity
    | eexists [_], []; repeat split; reflexivity
    | eexists [], [_]; repeat split; reflexivity
    | eexists [_], [_]; repeat split; reflexivity ].

(** C7, as the code has it: when the meter answers /XYZ5ABC123 CR LF, the
    decoded protocol mode is C (the character 5 lies in '0' < c <= '9')
    and the decoded baud rate is 9600.  The engine sets 300 baud and writes
    the sign-on; then it writes the bytes ACK '0' '5' '0' CR LF, flushes,
    sleeps the minimum reaction time of 200 ms, and after that sets the
    baud rate to 9600.  Between these events there are only sleeps, and
    the trace of the whole session sets the rate 9600 exactly once. *)
Theorem scenario_handshake_order :
  forall (time : nat -> Q) (baud bytesize : Z) (rest : channel) (fuel : nat),
    (5 <= bytesize <= 8)%Z ->
    let s0 := open_port baud bytesize (feed scenario_identification ++ rest) in
    let tr := trace (snd (read time fuel s0)) in
    fst (_read_identification_message (feed scenario_identification ++ rest))
    = Ok {| manufacturers_identification := B "XYZ";
            baudrate_identification := "5";
            identification := B "ABC1";
            protocol_mode := "C";
            baudrate := 9600 |}
    /\ (exists sleeps1 sleeps2 : list event,
           tr = [SetBaudrate 300; Write msg_signon; Flush] ++ sleeps1
                ++ [Write [ctrl_ACK; "0"; "5"; "0"; CR; LF]%char; Flush] ++ sleeps2
                ++ [Sleep min_reaction_time; SetBaudrate 9600]
           /\ forallb is_sleep sleeps1 = true
           /\ forallb is_sleep sleeps2 = true)
    /\ baudrate_switches tr = [300; 9600]%Z
    /\ (min_reaction_time == 200 # 1000)%Q.
Proof.
  intros time baud bytesize rest fuel Hsize s0 tr.
  split; [reflexivity|].
  assert (Hcases : (bytesize = 5 \/ bytesize = 6 \/ bytesize = 7 \/ bytesize = 8)%Z)
    by lia.
  subst tr. rewrite read_trace. subst s0.
  pose proof (scenario_identified rest) as Hid.
  remember (feed scenario_identification ++ rest) as ch eqn:Hch. clear Hch.
  destruct Hcases as [->|[->|[->| ->]]];
    unfold negotiate, sign_on, _write_handshake, _write_blocking, mbind,
      receiving, get, lift, emit, set_baudrate, now, set_is_blocking, ret;
    cbn; split_on_Qltb; rewrite Hid; cbn; split_on_Qltb;
    (split; [give_sleeps | split; reflexivity]).
Qed.

Lemma scenario_handshake_order_witness :
  let s0 := open_port 300 7 (feed scenario_identification) in
  let tr := trace (snd (read (fun k => inject_Z (Z.of_nat k)) 1 s0)) in
  (5 <= 7 <= 8)%Z
  /\ baudrate_switches tr = [300; 9600]%Z.
Proof.
  intros s0 tr. split; [lia|].
  apply (scenario_handshake_order (fun k => inject_Z (Z.of_nat k)) 300 7 [] 1).
  lia.
Defined.

(** C7 as stated fails: the protocol mode decoded in the scenario is C,
    not A. *)
Lemma scenario_mode_is_not_A :
  option_map protocol_mode
    (match fst (_read_identification_message (feed scenario_identification)) with
     | Ok m => Some m
     | Raise _ => None
     end)
  = Some "C"%char
  /\ "C"%char <> "A"%char.
Proof. split; [reflexivity | discriminate]. Qed.

(** * Further properties of the code *)

(** ** Line Reader *)

Lemma counter_agrees_step (m : nat) (msg : bytes) (b : ascii) :
  counter_agrees m msg ->
  (eom_step m b = 2 /\ exists front, msg ++ [b] = front ++ [CR; LF])
  \/ counter_agrees (eom_step m b) (msg ++ [b]).
Proof.
  intros [-> | [-> [front ->]]].
  - right. rewrite eom_step_0.
    destruct (Ascii.eqb_spec CR b) as [<-|_].
    + right. split; [reflexivity|]. exists msg. reflexivity.
    + left. reflexivity.
  - rewrite eom_step_1.
    destruct (Ascii.eqb_spec LF b) as [<-|_].
    + left. split; [reflexivity|]. exists front.
      rewrite <- app_assoc. reflexivity.
    + right. left. reflexivity.
Qed.

Lemma dataline_loop_conserves (ch : channel) :
  forall (m : nat) (msg out : bytes) (ch' : channel),
    counter_agrees m msg ->
    dataline_loop m msg ch = (out, ch') ->
    exists taken : bytes,
      (ch = feed taken ++ ch' /\ msg ++ taken = out ++ [CR; LF])
      \/ (out = msg ++ taken
          /\ (ch = feed taken ++ None :: ch' \/ (ch = feed taken /\ ch' = []))).
Proof.
  induction ch as [|[b|] ch IH]; intros m msg out ch' Hm H;
    cbn [dataline_loop] in H.
  - inversion H; subst. exists []. right.
    rewrite app_nil_r. split; [reflexivity|]. right. split; reflexivity.
  - destruct (counter_agrees_step m msg b Hm) as [[Htwo [front Hfront]] | Hnext].
    + rewrite Htwo in H. cbn [Nat.eqb length eom] in H.
      inversion H; subst. exists [b]. left. split; [reflexivity|].
      rewrite Hfront.
      replace (front ++ [CR; LF]) with ((front ++ [CR]) ++ [LF])
        by (rewrite <- app_assoc; reflexivity).
      rewrite !pop_last_snoc. rewrite <- app_assoc. reflexivity.
    + destruct (Nat.eqb (eom_step m b) (length eom)) eqn:Hstop.
      * exfalso. apply Nat.eqb_eq in Hstop. cbn [length eom] in Hstop.
        destruct Hnext as [H0 | [H1 _]]; lia.
      * destruct (IH _ _ _ _ Hnext H) as [taken [[Hch Hout] | [Hout Hch]]].
        -- exists (b :: taken). left. split.
           ++ cbn [feed map app]. rewrite Hch. reflexivity.
           ++ rewrite <- Hout, <- app_assoc. reflexivity.
        -- exists (b :: taken). right. split.
           ++ rewrite Hout, <- app_assoc. reflexivity.
           ++ destruct Hch as [Hch | [Hch Hnil]].
              ** left. cbn [feed map app]. rewrite Hch. reflexivity.
              ** right. split; [|exact Hnil].
                 cbn [feed map]. rewrite Hch. reflexivity.
  - inversion H; subst. exists []. right.
    rewrite app_nil_r. split; [reflexivity|]. left. reflexivity.
Qed.

(** X1: the Line Reader neither loses nor invents a byte.  Whatever the
    channel does, the call ends in one of two ways: at a terminator, and
    then the seed and the bytes taken from the channel are the returned
    line followed by CR LF; or at a read that returns nothing, and then the
    returned line is the seed and every byte taken, and the channel stands
    just after that empty read. *)
Theorem read_dataline_conserves :
  forall (seed : option bytes) (ch : channel),
    let msg := fst (_read_dataline seed ch) in
    let ch' := snd (_read_dataline seed ch) in
    exists taken : bytes,
      (ch = feed taken ++ ch' /\ seed_bytes seed ++ taken = msg ++ [CR; LF])
      \/ (msg = seed_bytes seed ++ taken
          /\ (ch = feed taken ++ None :: ch' \/ (ch = feed taken /\ ch' = []))).
Proof.
  intros seed ch msg ch'. subst msg ch'.
  destruct (_read_dataline seed ch) as [out rest] eqn:H.
  unfold _read_dataline in H. cbn [fst snd].
  apply (dataline_loop_conserves ch 0 (seed_bytes seed) out rest).
  - left. reflexivity.
  - destruct seed; exact H.
Qed.

(** X2: a line whose bytes after the seed hold no carriage return is read
    back whole.  Followed by CR LF it is returned without the terminator
    and the channel stands just after the LF; cut short by a read that
    returns nothing it is returned as far as it came. *)
Theorem read_dataline_returns_line :
  forall (seed : option bytes) (body : bytes) (rest : channel),
    ~ In CR body ->
    _read_dataline seed (feed body ++ Some CR :: Some LF :: rest)
    = (seed_bytes seed ++ body, rest)
    /\ _read_dataline seed (feed body ++ None :: rest)
       = (seed_bytes seed ++ body, rest)
    /\ _read_dataline seed (feed body) = (seed_bytes seed ++ body, []).
Proof.
  intros seed body rest Hcr. unfold _read_dataline.
  replace (match seed with None => [] | Some msg => msg end)
    with (seed_bytes seed) by (destruct seed; reflexivity).
  split; [|split].
  - apply dataline_loop_plain. exact Hcr.
  - apply dataline_loop_timeout. exact Hcr.
  - revert Hcr. generalize (seed_bytes seed) as msg.
    induction body as [|b body IH]; intros msg Hcr.
    + cbn. rewrite app_nil_r. reflexivity.
    + cbn [feed map dataline_loop].
      rewrite eom_step_other by (intros ->; apply Hcr; left; reflexivity).
      cbn [Nat.eqb length eom].
      change (map Some body) with (feed body).
      rewrite IH by (intros H; apply Hcr; right; exact H).
      rewrite <- app_assoc. reflexivity.
Qed.

Lemma read_dataline_returns_line_witness :
  ~ In CR (B ".8.0(0015.557*kWh)")
  /\ _read_dataline (Some (B "1"))
       (feed (B ".8.0(0015.557*kWh)") ++ Some CR :: Some LF :: [Some "!"%char])
     = (B "1.8.0(0015.557*kWh)", [Some "!"%char]).
Proof.
  assert (H : ~ In CR (B ".8.0(0015.557*kWh)")).
  { intros H. repeat (destruct H as [H|H]; [discriminate H|]). exact H. }
  split; [exact H|].
  apply (proj1 (read_dataline_returns_line (Some (B "1"))
                  (B ".8.0(0015.557*kWh)") [Some "!"%char] H)).
Defined.

(** ** Identification Parser *)

Lemma int16_hex (c : ascii) :
  (is_hex c = true -> exists n, int16 c = Ok n /\ n < 16)
  /\ (is_hex c = false -> int16 c = Raise ValueError).
Proof.
  unfold is_hex, int16. cbv zeta.
  destruct ((48 <=? nat_of_ascii c) && (nat_of_ascii c <=? 57)) eqn:H1.
  - split; [intros _ | discriminate].
    apply andb_prop in H1. destruct H1 as [Ha Hb].
    apply Nat.leb_le in Ha. apply Nat.leb_le in Hb.
    eexists. split; [reflexivity|lia].
  - destruct ((65 <=? nat_of_ascii c) && (nat_of_ascii c <=? 70)) eqn:H2.
    + split; [intros _ | discriminate].
      apply andb_prop in H2. destruct H2 as [Ha Hb].
      apply Nat.leb_le in Ha. apply Nat.leb_le in Hb.
      eexists. split; [reflexivity|lia].
    + destruct ((97 <=? nat_of_ascii c) && (nat_of_ascii c <=? 102)) eqn:H3.
      * split; [intros _ | discriminate].
        apply andb_prop in H3. destruct H3 as [Ha Hb].
        apply Nat.leb_le in Ha. apply Nat.leb_le in Hb.
        eexists. split; [reflexivity|lia].
      * split; [discriminate | reflexivity].
Qed.

Lemma select_baudrate_total (n : nat) :
  n < 16 -> exists rate, select_baudrate n = Ok rate.
Proof.
  intros Hn. unfold select_baudrate.
  do 16 (destruct n as [|n]; [eexists; reflexivity|]). lia.
Qed.

(** The decoding of a line of at least six bytes, case by case. *)
Lemma decode_identification_cases (msg : bytes) :
  6 <= length msg ->
  (seven_bit (slice 1 4 msg) && seven_bit (slice 5 (length msg - 2) msg) = false ->
   decode_identification msg = Raise UnicodeDecodeError)
  /\ (seven_bit (slice 1 4 msg) && seven_bit (slice 5 (length msg - 2) msg) = true ->
      is_hex (item msg 4) = false ->
      decode_identification msg = Raise ValueError)
  /\ (seven_bit (slice 1 4 msg) && seven_bit (slice 5 (length msg - 2) msg) = true ->
      is_hex (item msg 4) = true ->
      exists m, decode_identification msg = Ok m
                /\ manufacturers_identification m = slice 1 4 msg
                /\ baudrate_identification m = item msg 4
                /\ identification m = slice 5 (length msg - 2) msg).
Proof.
  intros Hlen. unfold decode_identification, decode_ascii.
  rewrite escape_test_false.
  destruct (Nat.ltb_spec (length msg) 6) as [Hlt|_]; [lia|].
  fold (seven_bit (slice 1 4 msg)).
  fold (seven_bit (slice 5 (length msg - 2) msg)).
  destruct (seven_bit (slice 1 4 msg));
    destruct (seven_bit (slice 5 (length msg - 2) msg)); cbn [andb bind];
    (split; [intros H; try discriminate H; reflexivity|]);
    (split; [intros H; try discriminate H | intros H; try discriminate H]).
  - intros Hhex. rewrite (proj2 (int16_hex _) Hhex). reflexivity.
  - intros Hhex. destruct (proj1 (int16_hex _) Hhex) as [n [Hn Hlt]].
    destruct (select_baudrate_total n Hlt) as [rate Hrate].
    rewrite Hn. cbn [bind]. rewrite Hrate. cbn [bind].
    eexists. repeat split.
Qed.

Lemma read_identification_line (ch : channel) :
  let msg := fst (_read_dataline None ch) in
  item msg 0 = "/"%char ->
  _read_identification_message ch
  = (decode_identification msg, snd (_read_dataline None ch)).
Proof.
  intros msg Hstart. subst msg. unfold _read_identification_message.
  destruct (_read_dataline None ch) as [msg ch1]. cbn [fst snd] in *.
  destruct msg as [|c msg]; [discriminate Hstart|].
  cbn [py_eq]. rewrite ord_eqb, Hstart, Ascii.eqb_refl. reflexivity.
Qed.

Lemma read_identification_not_started (ch : channel) :
  let msg := fst (_read_dataline None ch) in
  item msg 0 <> "/"%char ->
  forall m, fst (_read_identification_message ch) <> Ok m.
Proof.
  intros msg Hstart m. subst msg. unfold _read_identification_message.
  destruct (_read_dataline None ch) as [msg ch1]. cbn [fst snd] in *.
  destruct msg as [|c msg]; [discriminate|].
  cbn [py_eq]. rewrite ord_eqb.
  apply Ascii.eqb_neq in Hstart. rewrite Hstart. cbn [negb].
  destruct (drain (c :: msg) ch1). discriminate.
Qed.

Lemma decode_identification_short (msg : bytes) :
  length msg < 6 -> forall m, decode_identification msg <> Ok m.
Proof.
  intros Hlen m. unfold decode_identification.
  destruct (Nat.ltb_spec (length msg) 6) as [_|Hge]; [discriminate|lia].
Qed.

Lemma read_identification_accepted (ch : channel) (m : IdentificationMessage) :
  fst (_read_identification_message ch) = Ok m ->
  let msg := fst (_read_dataline None ch) in
  item msg 0 = "/"%char
  /\ 6 <= length msg
  /\ seven_bit (slice 1 4 msg) = true
  /\ seven_bit (slice 5 (length msg - 2) msg) = true
  /\ is_hex (item msg 4) = true.
Proof.
  intros Hm msg.
  destruct (ascii_dec (item msg 0) "/"%char) as [Hstart|Hstart];
    [|exfalso; exact (read_identification_not_started ch Hstart m Hm)].
  rewrite (read_identification_line ch Hstart) in Hm. cbn [fst] in Hm.
  fold msg in Hm.
  destruct (Nat.lt_ge_cases (length msg) 6) as [Hlt|Hge];
    [exfalso; exact (decode_identification_short msg Hlt m Hm)|].
  destruct (decode_identification_cases msg Hge) as [Huni [Hval _]].
  destruct (seven_bit (slice 1 4 msg) && seven_bit (slice 5 (length msg - 2) msg))
    eqn:Hbits; [|rewrite (Huni eq_refl) in Hm; discriminate Hm].
  destruct (is_hex (item msg 4)) eqn:Hhex;
    [|rewrite (Hval eq_refl eq_refl) in Hm; discriminate Hm].
  apply andb_prop in Hbits. tauto.
Qed.

(** X3: the Identification Parser returns a message exactly for the lines
    that start with '/', are at least six bytes long, hold only 7-bit
    bytes at positions 1 to 3 and from position 5 to two before the end,
    and have a hexadecimal digit (in either letter case) at position 4. *)
Theorem identification_accepted_iff :
  forall ch : channel,
    let msg := fst (_read_dataline None ch) in
    (exists m, fst (_read_identification_message ch) = Ok m)
    <-> (item msg 0 = "/"%char
         /\ 6 <= length msg
         /\ seven_bit (slice 1 4 msg) = true
         /\ seven_bit (slice 5 (length msg - 2) msg) = true
         /\ is_hex (item msg 4) = true).
Proof.
  intros ch msg. split.
  - intros [m Hm]. exact (read_identification_accepted ch m Hm).
  - intros [Hstart [Hge [H1 [H2 Hhex]]]].
    rewrite (read_identification_line ch Hstart). cbn [fst]. fold msg.
    destruct (decode_identification_cases msg Hge) as [_ [_ Hok]].
    rewrite H1, H2 in Hok.
    destruct (Hok eq_refl Hhex) as [m [Hm _]]. exists m. exact Hm.
Qed.

(** X4: what an accepted identification line gives.  The manufacturer's
    identification is bytes 1 to 3 of the line, three characters; the
    baud-rate identification is byte 4; the identification is the bytes
    from position 5 to two before the end of the line, so it is seven
    bytes shorter than the line, which has already lost its CR LF; and the
    channel stands where the Line Reader left it. *)
Theorem identification_fields :
  forall (ch ch' : channel) (m : IdentificationMessage),
    _read_identification_message ch = (Ok m, ch') ->
    let msg := fst (_read_dataline None ch) in
    manufacturers_identification m = slice 1 4 msg
    /\ length (manufacturers_identification m) = 3
    /\ baudrate_identification m = item msg 4
    /\ identification m = slice 5 (length msg - 2) msg
    /\ length (identification m) = length msg - 7
    /\ ch' = snd (_read_dataline None ch).
Proof.
  intros ch ch' m H msg.
  assert (Hacc : fst (_read_identification_message ch) = Ok m)
    by (rewrite H; reflexivity).
  apply read_identification_accepted in Hacc. fold msg in Hacc.
  destruct Hacc as [Hstart [Hge [H1 [H2 Hhex]]]].
  rewrite (read_identification_line ch Hstart) in H. fold msg in H.
  destruct (decode_identification_cases msg Hge) as [_ [_ Hok]].
  rewrite H1, H2 in Hok.
  destruct (Hok eq_refl Hhex) as [m0 [Hm0 [Hman [Hc Hident]]]].
  rewrite Hm0 in H. inversion H; subst m0 ch'. clear H.
  rewrite Hman, Hident. unfold slice.
  rewrite !length_firstn, !length_skipn.
  repeat split; try assumption; lia.
Qed.

Lemma identification_fields_witness :
  let ch := feed (B "/XYZ5ABC123" ++ [CR; LF]) ++ [Some ctrl_CTX] in
  let m := {| manufacturers_identification := B "XYZ";
              baudrate_identification := "5";
              identification := B "ABC1";
              protocol_mode := "C";
              baudrate := 9600 |} in
  _read_identification_message ch = (Ok m, [Some ctrl_CTX])
  /\ identification m = slice 5 (length (B "/XYZ5ABC123") - 2) (B "/XYZ5ABC123")
  /\ length (identification m) = length (B "/XYZ5ABC123") - 7.
Proof.
  intros ch m.
  assert (H : _read_identification_message ch = (Ok m, [Some ctrl_CTX]))
    by reflexivity.
  split; [exact H|].
  destruct (identification_fields ch [Some ctrl_CTX] m H)
    as [_ [_ [_ [Hident [Hlen _]]]]].
  split; [exact Hident | exact Hlen].
Defined.

(** X5: the two failures of the Identification Parser that are not
    InvalidMessageError.  On a line that starts with '/' and is at least
    six bytes long, a byte above 127 at positions 1 to 3 or from position 5
    to two before the end raises UnicodeDecodeError, and on a line without
    such a byte a character at position 4 that is no hexadecimal digit
    raises ValueError. *)
Theorem identification_other_errors :
  forall ch : channel,
    let msg := fst (_read_dataline None ch) in
    item msg 0 = "/"%char ->
    6 <= length msg ->
    (seven_bit (slice 1 4 msg) && seven_bit (slice 5 (length msg - 2) msg) = false ->
     fst (_read_identification_message ch) = Raise UnicodeDecodeError)
    /\ (seven_bit (slice 1 4 msg) && seven_bit (slice 5 (length msg - 2) msg) = true ->
        is_hex (item msg 4) = false ->
        fst (_read_identification_message ch) = Raise ValueError).
Proof.
  intros ch msg Hstart Hge.
  rewrite (read_identification_line ch Hstart). cbn [fst]. fold msg.
  destruct (decode_identification_cases msg Hge) as [Huni [Hval _]].
  split; assumption.
Qed.

Lemma identification_other_errors_witness :
  fst (_read_identification_message (feed (B "/XYZGABC123" ++ [CR; LF])))
  = Raise ValueError
  /\ fst (_read_identification_message
            (feed (B "/X" ++ [ascii_of_nat 200] ++ B "Z5ABC123" ++ [CR; LF])))
     = Raise UnicodeDecodeError.
Proof.
  split.
  - apply (identification_other_errors (feed (B "/XYZGABC123" ++ [CR; LF])));
      [reflexivity | vm_compute; lia | reflexivity | reflexivity].
  - apply (identification_other_errors
             (feed (B "/X" ++ [ascii_of_nat 200] ++ B "Z5ABC123" ++ [CR; LF])));
      [reflexivity | vm_compute; lia | reflexivity].
Defined.

Lemma ascii_of_code (c d : ascii) : nat_of_ascii c = nat_of_ascii d -> c = d.
Proof.
  intros H. rewrite <- (ascii_nat_embedding c), <- (ascii_nat_embedding d), H.
  reflexivity.
Qed.

Lemma int16_reserved (c : ascii) (n : nat) :
  int16 c = Ok n ->
  n < 16 /\ ((n = 7 \/ n = 8 \/ n = 9) <-> In c ["7"; "8"; "9"]%char).
Proof.
  assert (Hin : In c ["7"; "8"; "9"]%char
                <-> (nat_of_ascii c = 55 \/ nat_of_ascii c = 56
                     \/ nat_of_ascii c = 57)).
  { cbn [In]. split.
    - intros [<-|[<-|[<-|[]]]]; cbn; tauto.
    - intros [H|[H|H]]; [left | right; left | right; right; left];
        apply ascii_of_code; rewrite H; reflexivity. }
  unfold int16. cbv zeta. rewrite Hin.
  destruct ((48 <=? nat_of_ascii c) && (nat_of_ascii c <=? 57)) eqn:H1;
    [|destruct ((65 <=? nat_of_ascii c) && (nat_of_ascii c <=? 70)) eqn:H2;
      [|destruct ((97 <=? nat_of_ascii c) && (nat_of_ascii c <=? 102)) eqn:H3]];
    intros H; inversion H; subst n; clear H;
    match goal with
    | H : _ && _ = true |- _ =>
        apply andb_prop in H; destruct H as [Ha Hb];
        apply Nat.leb_le in Ha; apply Nat.leb_le in Hb; lia
    end.
Qed.

(** X6: the baud rate of an accepted identification line is an entry of
    the table, and it is 0 exactly when the baud-rate identification
    character is one of the reserved 7, 8, 9; for every other accepted
    character it is at least 300. *)
Theorem baudrate_zero_iff_reserved :
  forall (ch ch' : channel) (m : IdentificationMessage),
    _read_identification_message ch = (Ok m, ch') ->
    In (baudrate m) baudrateselection
    /\ (baudrate m = 0%Z <-> In (baudrate_identification m) ["7"; "8"; "9"]%char)
    /\ (baudrate m = 0 \/ 300 <= baudrate m <= 19200)%Z.
Proof.
  intros ch ch' m H.
  destruct (read_identification_ok _ _ _ H) as [msg [_ [_ Hdec]]].
  destruct (decode_identification_ok _ _ Hdec) as [_ [_ [_ [n [Hn Hrate]]]]].
  destruct (int16_reserved _ _ Hn) as [Hlt Hres].
  split; [exact (nth_error_In _ _ Hrate)|].
  rewrite <- Hres. clear Hres Hn Hdec H.
  do 16 (destruct n as [|n];
         [cbn in Hrate; inversion Hrate; subst; clear Hrate;
          split; [split; [intros H; try discriminate H; lia
                         | intros [H|[H|H]]; try discriminate H; reflexivity]
                 | lia]|]).
  lia.
Qed.

Lemma baudrate_zero_iff_reserved_witness :
  let m := {| manufacturers_identification := B "AAA";
              baudrate_identification := "8";
              identification := B "ide";
              protocol_mode := "C";
              baudrate := 0 |} in
  _read_identification_message (feed (B "/AAA8ident" ++ [CR; LF])) = (Ok m, [])
  /\ (baudrate m = 0%Z <-> In (baudrate_identification m) ["7"; "8"; "9"]%char).
Proof.
  intros m.
  assert (H : _read_identification_message (feed (B "/AAA8ident" ++ [CR; LF]))
              = (Ok m, [])) by reflexivity.
  split; [exact H|].
  exact (proj1 (proj2 (baudrate_zero_iff_reserved _ _ _ H))).
Defined.

(** ** Data Block Reader *)

(** Plain lines that the consumer accepts are yielded one for one, whatever
    follows them on the channel, and each costs one unit of fuel. *)
Lemma line_or_eof_lines {A : Type} (body : bytes -> result A) :
  forall (lines : list bytes) (recs : list A) (fuel : nat) (rest : channel),
    Forall2 (fun l r => plain_line l /\ body l = Ok r) lines recs ->
    line_or_eof body (length lines + fuel)
      (feed (concat (map (fun l => l ++ [CR; LF]) lines)) ++ rest)
    = let '(ys, e, ch) := line_or_eof body fuel rest in (recs ++ ys, e, ch).
Proof.
  intros lines recs fuel rest Hall.
  induction Hall as [|l r lines recs [Hplain Hbody] _ IH].
  - cbn [length map concat feed app Nat.add].
    destruct (line_or_eof body fuel rest) as [[ys e] ch]. reflexivity.
  - destruct l as [|c l]; [contradiction|].
    destruct Hplain as [Hc Hcr].
    cbn [length Nat.add map concat]. rewrite feed_app, feed_app.
    cbn [feed map app line_or_eof ser_read].
    apply Ascii.eqb_neq in Hc. rewrite Hc.
    rewrite <- !app_assoc. cbn [app].
    change (map Some l) with (feed l).
    rewrite read_dataline_plain by exact Hcr.
    rewrite Hbody.
    change (map Some (concat (map (fun l0 => l0 ++ [CR; LF]) lines)))
      with (feed (concat (map (fun l0 => l0 ++ [CR; LF]) lines))).
    rewrite IH.
    destruct (line_or_eof body fuel rest) as [[ys e] ch]. reflexivity.
Qed.

Lemma Forall2_same (lines : list bytes) :
  Forall plain_line lines ->
  Forall2 (fun l r => plain_line l /\ Ok l = Ok r) lines lines.
Proof.
  induction 1 as [|l lines Hl _ IH]; constructor; [split; [exact Hl|reflexivity]|exact IH].
Qed.

Lemma encode_block_feed (lines : list bytes) (f1 f2 bcc : ascii) (rest : channel) :
  feed (encode_block lines f1 f2 bcc) ++ rest
  = Some ctrl_CTX
    :: feed (concat (map (fun l => l ++ [CR; LF]) lines))
    ++ Some ctrl_EOF :: Some f1 :: Some f2 :: Some ctrl_ETX :: Some bcc :: rest.
Proof.
  unfold encode_block. rewrite feed_app. cbn [feed map app].
  rewrite feed_app. rewrite <- app_assoc. reflexivity.
Qed.

(** X7: the framing round trip.  A block encoded from plain lines (not
    empty, not starting with the end-of-block byte, no carriage return
    after the first byte) is read back as exactly these lines, in order;
    the read ends normally, and it stops after the block check character:
    what the meter sends after the block is left on the channel. *)
Theorem raw_block_roundtrip :
  forall (lines : list bytes) (f1 f2 bcc : ascii) (fuel : nat) (rest : channel),
    Forall plain_line lines ->
    length lines < fuel ->
    raw_lines fuel (feed (encode_block lines f1 f2 bcc) ++ rest)
    = (lines, Finished (Ok tt), rest).
Proof.
  intros lines f1 f2 bcc fuel rest Hplain Hfuel.
  rewrite encode_block_feed, raw_lines_after_STX.
  replace fuel with (length lines + S (fuel - length lines - 1)) by lia.
  rewrite (line_or_eof_lines _ lines lines _ _ (Forall2_same lines Hplain)).
  cbn [line_or_eof ser_read]. rewrite Ascii.eqb_refl.
  rewrite app_nil_r, read_trailer_four, Ascii.eqb_refl. reflexivity.
Qed.

Lemma raw_block_roundtrip_witness :
  Forall plain_line [B "1.8.0(0015.55*kWh)"; B "F.F(00)"]
  /\ raw_lines 3
       (feed (encode_block [B "1.8.0(0015.55*kWh)"; B "F.F(00)"] CR LF "U")
        ++ [Some "x"%char])
     = ([B "1.8.0(0015.55*kWh)"; B "F.F(00)"], Finished (Ok tt), [Some "x"%char]).
Proof.
  assert (H : Forall plain_line [B "1.8.0(0015.55*kWh)"; B "F.F(00)"]).
  { repeat constructor; try discriminate;
      cbn; intros H; decompose [or] H; try discriminate; contradiction. }
  split; [exact H|].
  apply (raw_block_roundtrip _ CR LF "U"%char 3 [Some "x"%char] H).
  cbn. lia.
Defined.

(** X8: the first line that the consumer rejects ends the read.  The
    records of the lines before it have been delivered, the exception of
    the consumer is what comes out, and nothing after the rejected line is
    read: the later lines and the trailer stay on the channel. *)
Theorem first_rejected_line_ends_the_read :
  forall (A : Type) (body : bytes -> result A)
         (good : list bytes) (recs : list A) (bad : bytes) (e : exn)
         (later : list bytes) (f1 f2 bcc : ascii) (fuel : nat),
    Forall2 (fun l r => plain_line l /\ body l = Ok r) good recs ->
    plain_line bad ->
    body bad = Raise e ->
    length good < fuel ->
    _read_data_message body fuel
      (feed (encode_block (good ++ bad :: later) f1 f2 bcc))
    = (recs, Finished (Raise e),
       feed (concat (map (fun l => l ++ [CR; LF]) later)
             ++ [ctrl_EOF; f1; f2; ctrl_ETX; bcc])).
Proof.
  intros A body good recs bad e later f1 f2 bcc fuel Hgood Hbad He Hfuel.
  rewrite <- (app_nil_r (feed _)), encode_block_feed.
  unfold _read_data_message. cbn [ser_read].
  rewrite CTX_is_CTX. cbn [negb].
  rewrite map_app, concat_app, feed_app, <- app_assoc.
  replace fuel with (length good + S (fuel - length good - 1)) by lia.
  rewrite (line_or_eof_lines body good recs _ _ Hgood).
  destruct bad as [|c bad]; [contradiction|]. destruct Hbad as [Hc Hcr].
  cbn [map concat]. rewrite feed_app. cbn [feed map app line_or_eof ser_read].
  apply Ascii.eqb_neq in Hc. rewrite Hc.
  rewrite map_app, <- !app_assoc. cbn [map app].
  change (map Some bad) with (feed bad).
  rewrite read_dataline_plain by exact Hcr.
  rewrite He, app_nil_r.
  unfold feed. rewrite map_app. reflexivity.
Qed.

Lemma first_rejected_line_ends_the_read_witness :
  _read_data_message _read_dataset_structure 2
    (feed (encode_block ([B "0.0(1.5)"] ++ B "oops" :: [B "1.0(2.5)"]) CR LF "U"))
  = ([{| ds_id := B "0.0"; ds_value := Finite false 15 (-1); ds_unit := None |}],
     Finished (Raise (InvalidMessageError UnableToParseDataset (B "oops"))),
     feed (concat (map (fun l => l ++ [CR; LF]) [B "1.0(2.5)"])
           ++ [ctrl_EOF; CR; LF; ctrl_ETX; "U"%char])).
Proof.
  apply (first_rejected_line_ends_the_read DataSetMessage _read_dataset_structure
           [B "0.0(1.5)"]
           [{| ds_id := B "0.0"; ds_value := Finite false 15 (-1); ds_unit := None |}]
           (B "oops") (InvalidMessageError UnableToParseDataset (B "oops"))
           [B "1.0(2.5)"] CR LF "U"%char 2).
  - constructor; [split; [|reflexivity]|constructor].
    split; [discriminate|].
    cbn. intros H; decompose [or] H; try discriminate; contradiction.
  - split; [discriminate|].
    cbn. intros H; decompose [or] H; try discriminate; contradiction.
  - reflexivity.
  - cbn. lia.
Defined.

Lemma read_trailer_short (tail : bytes) :
  length tail <= 2 -> read_trailer (feed tail) = (Raise IndexError, []).
Proof.
  intros H.
  destruct tail as [|a [|b [|c tail]]]; [reflexivity..|simpl in H; lia].
Qed.

(** X9: a block that breaks off after its end-of-block byte.  When the
    meter sends at most two bytes after the end-of-block byte and is silent
    from then on, every line has been delivered and the read ends with
    IndexError, the exception of indexing the empty result of the third
    read; it is neither TimeoutException nor InvalidMessageError. *)
Theorem truncated_trailer_raises_IndexError :
  forall (A : Type) (body : bytes -> result A)
         (lines : list bytes) (recs : list A) (tail : bytes) (fuel : nat),
    Forall2 (fun l r => plain_line l /\ body l = Ok r) lines recs ->
    length lines < fuel ->
    length tail <= 2 ->
    _read_data_message body fuel
      (feed ([ctrl_CTX] ++ concat (map (fun l => l ++ [CR; LF]) lines)
             ++ [ctrl_EOF] ++ tail))
    = (recs, Finished (Raise IndexError), []).
Proof.
  intros A body lines recs tail fuel Hall Hfuel Htail.
  rewrite feed_app. cbn [feed map app].
  unfold _read_data_message. cbn [ser_read].
  rewrite CTX_is_CTX. cbn [negb].
  change (map Some (concat (map (fun l => l ++ [CR; LF]) lines) ++ ctrl_EOF :: tail))
    with (feed (concat (map (fun l => l ++ [CR; LF]) lines) ++ ctrl_EOF :: tail)).
  rewrite feed_app.
  replace fuel with (length lines + S (fuel - length lines - 1)) by lia.
  rewrite (line_or_eof_lines body lines recs _ _ Hall).
  cbn [feed map line_or_eof ser_read]. rewrite Ascii.eqb_refl.
  change (map Some tail) with (feed tail).
  rewrite (read_trailer_short tail Htail), app_nil_r. reflexivity.
Qed.

Lemma truncated_trailer_raises_IndexError_witness :
  _read_data_message (fun dataline => Ok dataline) 2
    (feed ([ctrl_CTX] ++ concat (map (fun l => l ++ [CR; LF]) [B "0.0(1.5)"])
           ++ [ctrl_EOF] ++ [CR; LF]))
  = ([B "0.0(1.5)"], Finished (Raise IndexError), []).
Proof.
  apply (truncated_trailer_raises_IndexError bytes (fun dataline => Ok dataline)
           [B "0.0(1.5)"] [B "0.0(1.5)"] [CR; LF] 2).
  - constructor; [split; [|reflexivity]|constructor].
    split; [discriminate|].
    cbn. intros H; decompose [or] H; try discriminate; contradiction.
  - cbn. lia.
  - cbn. lia.
Defined.

(** ** Dataset Parser *)

Lemma dataset_line_then (id ip fp : bytes) (unit : option bytes) (junk : bytes) :
  dataset_line id ip fp unit ++ junk
  = id ++ "("%char :: ip ++ "."%char :: fp
    ++ match unit with
       | Some u => "*"%char :: u
       | None => []
       end
    ++ ")"%char :: junk.
Proof.
  unfold dataset_line. rewrite <- app_assoc. cbn [app]. f_equal. f_equal.
  rewrite <- app_assoc. cbn [app]. f_equal. f_equal.
  rewrite <- !app_assoc. reflexivity.
Qed.

(** The match of the pattern at the start of a text that goes on after the
    closing parenthesis. *)
Lemma re_match_dataset_line_then (id ip fp : bytes) (unit : option bytes)
    (junk : bytes) :
  forallb id_char id = true ->
  ip <> [] ->
  forallb is_digit ip = true ->
  forallb is_digit fp = true ->
  Nat.odd (length fp) = true ->
  unit_ok unit ->
  (unit = None ->
   match junk with
   | [] => True
   | c :: _ => is_digit c = false
   end) ->
  re_match dataset_regex (dataset_line id ip fp unit ++ junk)
  = Some (match unit with
          | Some u => [("Unit"%string, u)]
          | None => []
          end ++ [("Value"%string, ip ++ "."%char :: fp); ("ID"%string, id)]).
Proof.
  intros Hid Hip Hipd Hfpd Hodd Hunit Hjunk.
  rewrite dataset_line_then.
  unfold re_match, dataset_regex, Plus.
  cbn [rmatch].
  eapply iterate_chars with (p := id_char);
    [reflexivity | reflexivity | | exact Hid | rewrite length_app; lia].
  cbn [one_char]. rewrite Ascii.eqb_refl. rewrite firstn_prefix.
  destruct ip as [|d ip]; [congruence|].
  cbn [forallb] in Hipd. apply andb_prop in Hipd. destruct Hipd as [Hd Hipd].
  cbn [app one_char]. rewrite Hd.
  eapply iterate_chars with (p := is_digit);
    [reflexivity | reflexivity | | exact Hipd | rewrite length_app; lia].
  destruct fp as [|f fp]; [discriminate Hodd|].
  cbn [forallb] in Hfpd. apply andb_prop in Hfpd. destruct Hfpd as [Hf Hfpd].
  cbn [app one_char]. rewrite Hf.
  change (not_newline ".") with true. cbv iota.
  set (post := match unit with Some u => "*"%char :: u | None => [] end
               ++ ")"%char :: junk).
  replace (d :: ip ++ "."%char :: f :: fp ++ post)
    with ((d :: ip ++ "."%char :: f :: fp) ++ post)
    by (cbn [app]; rewrite <- app_assoc; reflexivity).
  eapply iterate_pairs with (p := not_newline) (q := is_digit);
    [reflexivity | | | apply forallb_digit_pairs; exact Hfpd
     | cbn [length] in Hodd; rewrite Nat.odd_succ in Hodd; exact Hodd
     | rewrite length_app; lia].
  - subst post. destruct unit as [[|u1 u]|]; cbn [app].
    + destruct Hunit as [_ []].
    + destruct Hunit as [_ Hu1]. rewrite Hu1. apply andb_false_r.
    + specialize (Hjunk eq_refl). destruct junk as [|j junk]; [exact I|].
      rewrite Hjunk. apply andb_false_r.
  - rewrite firstn_prefix. subst post.
    destruct unit as [[|u1 u]|]; cbn [app one_char].
    + destruct Hunit as [_ []].
    + destruct Hunit as [Hu _].
      cbn [forallb] in Hu. apply andb_prop in Hu. destruct Hu as [Hu1 Hu].
      rewrite Ascii.eqb_refl.
      change (not_in ["("%char; ")"%char; "/"%char; "!"%char]) with id_char.
      rewrite Hu1.
      erewrite iterate_chars with (p := id_char) (post := ")"%char :: junk);
        [reflexivity | reflexivity | reflexivity | | exact Hu
         | rewrite length_app; lia].
      cbn [one_char]. rewrite Ascii.eqb_refl.
      change (u1 :: u ++ ")"%char :: junk) with ((u1 :: u) ++ ")"%char :: junk).
      rewrite firstn_prefix. reflexivity.
    + change (Ascii.eqb "*" ")") with false. cbv iota.
      rewrite Ascii.eqb_refl. reflexivity.
Qed.

(** X10: the Dataset Parser reads the start of its argument and ignores
    what follows the closing parenthesis.  For a line with digits, a point
    and an odd number of fraction digits, whose unit, if it has one, does
    not start with a digit, followed by any text, the record has the
    identifier, the unit and the value of the line, digit for digit, and
    nothing of the text; when the line has no unit, the text must not
    start with a digit. *)
Theorem dataset_parser_ignores_trailing_text :
  forall (p : dataset_parts) (junk : bytes),
    parts_ok p ->
    (part_unit p = None ->
     match junk with
     | [] => True
     | c :: _ => is_digit c = false
     end) ->
    _read_dataset_structure (line_of p ++ junk) = Ok (record_of p).
Proof.
  intros [id ip fp unit] junk.
  unfold parts_ok, line_of, record_of. cbn [part_id part_int part_frac part_unit].
  intros [Hid [Hine [Hip [Hfp [Hodd [Hunit _]]]]]] Hjunk.
  assert (Hfne : fp <> []) by (intros ->; discriminate Hodd).
  unfold _read_dataset_structure.
  rewrite (re_match_dataset_line_then id ip fp unit junk
             Hid Hine Hip Hfp Hodd Hunit Hjunk).
  remember (match unit with
            | Some u => [("Unit"%string, u)]
            | None => []
            end ++ [("Value"%string, ip ++ "."%char :: fp); ("ID"%string, id)])
    as m eqn:Hm.
  assert (Hg1 : group m "ID" = Some id) by (subst m; destruct unit; reflexivity).
  assert (Hg2 : group m "Value" = Some (ip ++ "."%char :: fp))
    by (subst m; destruct unit; reflexivity).
  assert (Hg3 : group m "Unit" = unit) by (subst m; destruct unit; reflexivity).
  clear Hm. rewrite Hg1, Hg2, Hg3. cbn [str].
  rewrite (Decimal_of_point_number ip fp Hine Hfne Hip Hfp). cbn [bind].
  destruct unit; reflexivity.
Qed.

Lemma dataset_parser_ignores_trailing_text_witness :
  _read_dataset_structure (B "1.8.0(0015.557*kWh)" ++ B ")(12.5) and more")
  = Ok {| ds_id := B "1.8.0";
          ds_value := Finite false 15557 (-3);
          ds_unit := Some (B "kWh") |}.
Proof.
  apply (dataset_parser_ignores_trailing_text
           {| part_id := B "1.8.0"; part_int := B "0015"; part_frac := B "557";
              part_unit := Some (B "kWh") |} (B ")(12.5) and more")).
  - unfold parts_ok. cbn [part_id part_int part_frac part_unit].
    split; [reflexivity|]. split; [discriminate|]. split; [reflexivity|].
    split; [reflexivity|]. split; [reflexivity|].
    split; [split; reflexivity|].
    split; cbn; intros H; decompose [or] H; try discriminate; contradiction.
  - discriminate.
Defined.

(** ** Timing Controller *)

Lemma expected_delay_any_length (n n' : nat) (baud bytesize : Z) (q : Q) :
  expected_delay n baud bytesize = Ok q ->
  expected_delay n' baud bytesize
  = Ok (inject_Z (Z.of_nat n') * 1 / inject_Z (baud / (bytesize + 3)))%Q.
Proof.
  unfold expected_delay. cbv zeta.
  destruct (baud / (bytesize + 3) =? 0)%Z; [discriminate|reflexivity].
Qed.

(** ** Session Engine *)

(** The port after the sign-on. *)
Lemma sign_on_state (time : nat -> Q) (s : Serial) (q : Q) :
  expected_delay (length msg_signon) 300 (ser_bytesize s) = Ok q ->
  let d := (time (S (ticks s)) - time (ticks s))%Q in
  sign_on time s
  = (Ok tt,
     {| rx := rx s; ser_baudrate := 300; ser_bytesize := ser_bytesize s;
        ser_is_blocking := if Qltb d q then false else ser_is_blocking s;
        ticks := S (S (ticks s));
        trace := trace s ++ [SetBaudrate 300; Write msg_signon; Flush]
                 ++ (if Qltb d q then [Sleep (q - d)] else []) |}).
Proof.
  intros Hq d.
  unfold sign_on, mbind, set_baudrate, get, lift, now, emit, set_is_blocking, ret.
  cbn [ser_baudrate ser_bytesize ticks trace rx ser_is_blocking].
  rewrite Hq. fold d. destruct (Qltb d q);
    cbn [ser_baudrate ser_bytesize ticks trace rx ser_is_blocking];
    rewrite <- ?app_assoc; cbn [app]; rewrite ?app_nil_r; reflexivity.
Qed.

(** The port after the handshake. *)
Lemma write_handshake_state (time : nat -> Q) (s : Serial)
    (m : IdentificationMessage) (q : Q) :
  expected_delay (length (handshake_data m)) (ser_baudrate s) (ser_bytesize s)
  = Ok q ->
  let delay := (q - (time (S (ticks s)) - time (ticks s)))%Q in
  _write_handshake time m s
  = (Ok tt,
     {| rx := rx s; ser_baudrate := baudrate m; ser_bytesize := ser_bytesize s;
        ser_is_blocking := ser_is_blocking s;
        ticks := S (S (ticks s));
        trace := trace s ++ [Write (handshake_data m); Flush]
                 ++ (if negb (ser_is_blocking s) && Qltb 0 delay
                     then [Sleep delay] else [])
                 ++ [Sleep min_reaction_time; SetBaudrate (baudrate m)] |}).
Proof.
  intros Hq delay.
  unfold _write_handshake, _write_blocking, mbind, get, lift, now, emit, ret,
    set_baudrate.
  cbn [ser_baudrate ser_bytesize ticks trace rx ser_is_blocking].
  rewrite Hq. fold delay.
  destruct (negb (ser_is_blocking s) && Qltb 0 delay);
    cbn [ser_baudrate ser_bytesize ticks trace rx ser_is_blocking];
    rewrite <- ?app_assoc; reflexivity.
Qed.

Lemma expected_delay_300 (n : nat) (bytesize : Z) :
  (0 < bytesize + 3 <= 300)%Z ->
  exists q, expected_delay n 300 bytesize = Ok q.
Proof.
  intros H. unfold expected_delay. cbv zeta.
  assert (Hpos : (0 < 300 / (bytesize + 3))%Z) by (apply Z.div_str_pos; lia).
  destruct (Z.eqb_spec (300 / (bytesize + 3)) 0) as [E|_]; [lia|].
  eexists. reflexivity.
Qed.

(** What [negotiate] does, by the outcome of the Identification Parser. *)
Lemma negotiate_state (time : nat -> Q) (s : Serial) :
  (0 < ser_bytesize s + 3 <= 300)%Z ->
  exists (q : Q) (sleeps1 : list event),
    expected_delay (length msg_signon) 300 (ser_bytesize s) = Ok q
    /\ forallb is_sleep sleeps1 = true
    /\ let flag := if Qltb (time (S (ticks s)) - time (ticks s)) q
                   then false else ser_is_blocking s in
       let signed := trace s ++ [SetBaudrate 300; Write msg_signon; Flush]
                     ++ sleeps1 in
       match _read_identification_message (rx s) with
       | (Raise e, ch') =>
           negotiate time s
           = (Raise e,
              {| rx := ch'; ser_baudrate := 300; ser_bytesize := ser_bytesize s;
                 ser_is_blocking := flag; ticks := S (S (ticks s));
                 trace := signed |})
       | (Ok m, ch') =>
           exists sleeps2 : list event,
             forallb is_sleep sleeps2 = true
             /\ negotiate time s
                = (Ok m,
                   {| rx := ch'; ser_baudrate := baudrate m;
                      ser_bytesize := ser_bytesize s;
                      ser_is_blocking := flag; ticks := S (S (S (S (ticks s))));
                      trace := signed ++ [Write (handshake_data m); Flush]
                               ++ sleeps2
                               ++ [Sleep min_reaction_time;
                                   SetBaudrate (baudrate m)] |})
       end.
Proof.
  intros Hsize.
  destruct (expected_delay_300 (length msg_signon) _ Hsize) as [q Hq].
  set (d := (time (S (ticks s)) - time (ticks s))%Q).
  exists q, (if Qltb d q then [Sleep (q - d)%Q] else []).
  split; [exact Hq|]. split; [destruct (Qltb d q); reflexivity|].
  cbv zeta.
  destruct (_read_identification_message (rx s)) as [[m|e] ch'] eqn:Hid.
  - pose proof (expected_delay_any_length _ (length (handshake_data m)) _ _ _ Hq)
      as Hq'.
    set (q' := (inject_Z (Z.of_nat (length (handshake_data m))) * 1
                / inject_Z (300 / (ser_bytesize s + 3)))%Q) in Hq'.
    set (flag := if Qltb d q then false else ser_is_blocking s).
    set (delay := (q' - (time (S (S (S (ticks s)))) - time (S (S (ticks s)))))%Q).
    exists (if negb flag && Qltb 0 delay then [Sleep delay] else []).
    split; [destruct (negb flag && Qltb 0 delay); reflexivity|].
    unfold negotiate, mbind.
    rewrite (sign_on_state time s q Hq). fold d. fold flag.
    unfold receiving. cbn [rx]. rewrite Hid. unfold with_rx.
    cbn [ser_baudrate ser_bytesize ticks trace rx ser_is_blocking].
    erewrite write_handshake_state
      by (cbn [ser_baudrate ser_bytesize]; exact Hq').
    cbn [ser_baudrate ser_bytesize ticks trace rx ser_is_blocking].
    fold delay. unfold ret. rewrite <- !app_assoc. reflexivity.
  - unfold negotiate, mbind.
    rewrite (sign_on_state time s q Hq). fold d.
    unfold receiving. cbn [rx]. rewrite Hid. reflexivity.
Qed.

(** Reading the data block changes nothing of the port but what is left to
    receive. *)
Lemma read_port (time : nat -> Q) (fuel : nat) (s : Serial) :
  exists ch, snd (read time fuel s) = with_rx (snd (negotiate time s)) ch.
Proof.
  unfold read. destruct (negotiate time s) as [[m|e] s']; cbn [snd].
  - destruct (_read_data_message _read_dataset_structure fuel (rx s'))
      as [[ys e] ch]. exists ch. reflexivity.
  - exists (rx s'). destruct s'. reflexivity.
Qed.

(** X16: the handshake, for every identification line that the parser
    accepts and every legal frame size.  The session sets 300 baud and
    writes the sign-on; it then writes ACK, '0', the meter's own baud-rate
    character, '0', CR, LF, sleeps the minimum reaction time and only then
    sets the port to the meter's baud rate.  Nothing but sleeps lies
    between these events, nothing follows them, and the port is left at
    the meter's rate. *)
Theorem handshake_follows_identification :
  forall (time : nat -> Q) (s : Serial) (m : IdentificationMessage)
         (ch' : channel) (fuel : nat),
    (0 < ser_bytesize s + 3 <= 300)%Z ->
    _read_identification_message (rx s) = (Ok m, ch') ->
    let s' := snd (read time fuel s) in
    (exists sleeps1 sleeps2 : list event,
        trace s'
        = trace s ++ [SetBaudrate 300; Write msg_signon; Flush] ++ sleeps1
          ++ [Write [ctrl_ACK; "0"%char; baudrate_identification m; "0"%char;
                     CR; LF]; Flush] ++ sleeps2
          ++ [Sleep min_reaction_time; SetBaudrate (baudrate m)]
        /\ forallb is_sleep sleeps1 = true
        /\ forallb is_sleep sleeps2 = true)
    /\ ser_baudrate s' = baudrate m
    /\ ser_bytesize s' = ser_bytesize s.
Proof.
  intros time s m ch' fuel Hsize Hid s'.
  destruct (negotiate_state time s Hsize) as [q [sleeps1 [_ [H1 Hneg]]]].
  cbv zeta in Hneg. rewrite Hid in Hneg.
  destruct Hneg as [sleeps2 [H2 Hneg]].
  destruct (read_port time fuel s) as [ch Hport].
  subst s'. rewrite Hport, Hneg. cbn [snd with_rx trace ser_baudrate ser_bytesize].
  split; [|split; reflexivity].
  exists sleeps1, sleeps2. split; [|split; assumption].
  rewrite <- !app_assoc. reflexivity.
Qed.

Lemma handshake_follows_identification_witness :
  let s := open_port 9600 8 (feed (B "/ABCAmeter" ++ [CR; LF])) in
  let s' := snd (read (fun k => inject_Z (Z.of_nat k)) 1 s) in
  ser_baudrate s' = 600%Z /\ ser_bytesize s' = 8%Z.
Proof.
  intros s s'.
  apply (handshake_follows_identification (fun k => inject_Z (Z.of_nat k)) s
           {| manufacturers_identification := B "ABC";
              baudrate_identification := "A";
              identification := B "met";
              protocol_mode := "A";
              baudrate := 600 |} [] 1).
  - cbn. lia.
  - reflexivity.
Defined.

(** X17: when the Identification Parser raises, the session ends there.
    The exception is what comes out of [read]; no record is delivered; the
    trace holds the sign-on and after it nothing or one sleep, so no
    acknowledgement is written; the port stays at 300 baud; and the data
    block is not touched: the channel is as the parser left it. *)
Theorem failed_identification_stops_session :
  forall (time : nat -> Q) (s : Serial) (e : exn) (ch' : channel) (fuel : nat),
    (0 < ser_bytesize s + 3 <= 300)%Z ->
    _read_identification_message (rx s) = (Raise e, ch') ->
    exists (s' : Serial) (sleeps : list event),
      read time fuel s = ([], Finished (Raise e), s')
      /\ trace s' = trace s ++ [SetBaudrate 300; Write msg_signon; Flush] ++ sleeps
      /\ forallb is_sleep sleeps = true
      /\ length sleeps <= 1
      /\ ser_baudrate s' = 300%Z
      /\ rx s' = ch'.
Proof.
  intros time s e ch' fuel Hsize Hid.
  destruct (expected_delay_300 (length msg_signon) _ Hsize) as [q Hq].
  set (d := (time (S (ticks s)) - time (ticks s))%Q).
  eexists. exists (if Qltb d q then [Sleep (q - d)%Q] else []).
  unfold read, negotiate, mbind.
  rewrite (sign_on_state time s q Hq). fold d.
  unfold receiving. cbn [rx]. rewrite Hid.
  split; [reflexivity|]. cbn [with_rx trace ser_baudrate rx].
  split; [reflexivity|].
  split; [destruct (Qltb d q); reflexivity|].
  split; [destruct (Qltb d q); simpl; lia|].
  split; reflexivity.
Qed.

Lemma failed_identification_stops_session_witness :
  exists (s' : Serial) (sleeps : list event),
    read (fun k => inject_Z (Z.of_nat k)) 5
      (open_port 9600 7 (feed (B "/AB1" ++ [CR; LF; ctrl_CTX])))
    = ([], Finished (Raise (InvalidMessageError IdentificationTooShort5 (B "/AB1"))), s')
    /\ trace s' = [] ++ [SetBaudrate 300; Write msg_signon; Flush] ++ sleeps
    /\ forallb is_sleep sleeps = true
    /\ length sleeps <= 1
    /\ ser_baudrate s' = 300%Z
    /\ rx s' = [Some ctrl_CTX].
Proof.
  apply (failed_identification_stops_session (fun k => inject_Z (Z.of_nat k))
           (open_port 9600 7 (feed (B "/AB1" ++ [CR; LF; ctrl_CTX])))
           (InvalidMessageError IdentificationTooShort5 (B "/AB1")) [Some ctrl_CTX] 5).
  - cbn. lia.
  - reflexivity.
Defined.

(** X18: the mark for non-blocking writes is decided at the sign-on and
    nowhere else.  After [read], whether the identification was accepted
    or not and whatever the clock read, the port is marked as the sign-on
    left it; and a port that was marked non-blocking before [read] is
    marked non-blocking after it: the mark is never set back. *)
Theorem blocking_mark_is_set_at_sign_on :
  forall (time : nat -> Q) (s : Serial) (fuel : nat),
    (0 < ser_bytesize s + 3 <= 300)%Z ->
    ser_is_blocking (snd (read time fuel s))
    = ser_is_blocking (snd (sign_on time s))
    /\ (ser_is_blocking s = false ->
        ser_is_blocking (snd (read time fuel s)) = false).
Proof.
  intros time s fuel Hsize.
  destruct (negotiate_state time s Hsize) as [q [sleeps [Hq [_ Hneg]]]].
  cbv zeta in Hneg.
  assert (Hread : ser_is_blocking (snd (read time fuel s))
                  = if Qltb (time (S (ticks s)) - time (ticks s)) q
                    then false else ser_is_blocking s).
  { destruct (read_port time fuel s) as [ch Hport]. rewrite Hport.
    destruct (_read_identification_message (rx s)) as [[m|e] ch'].
    - destruct Hneg as [sleeps2 [_ Hneg]]. rewrite Hneg. reflexivity.
    - rewrite Hneg. reflexivity. }
  split.
  - rewrite Hread, (sign_on_state time s q Hq). reflexivity.
  - intros Hflag. rewrite Hread, Hflag.
    destruct (Qltb (time (S (ticks s)) - time (ticks s)) q); reflexivity.
Qed.

Lemma blocking_mark_is_set_at_sign_on_witness :
  let s := {| rx := feed scenario_identification; ser_baudrate := 9600;
              ser_bytesize := 8; ser_is_blocking := false;
              ticks := 0; trace := [] |} in
  (0 < ser_bytesize s + 3 <= 300)%Z
  /\ ser_is_blocking (snd (read (fun k => inject_Z (Z.of_nat k)) 1 s)) = false.
Proof.
  intros s.
  assert (Hsize : (0 < ser_bytesize s + 3 <= 300)%Z) by (cbn; lia).
  split; [exact Hsize|].
  exact (proj2 (blocking_mark_is_set_at_sign_on
                  (fun k => inject_Z (Z.of_nat k)) s 1 Hsize) eq_refl).
Defined.

(** A block of plain lines that the consumer accepts, and what follows it
    on the channel. *)
Lemma read_data_message_block {A : Type} (body : bytes -> result A)
    (lines : list bytes) (recs : list A) (f1 f2 bcc : ascii) (fuel : nat)
    (rest : channel) :
  Forall2 (fun l r => plain_line l /\ body l = Ok r) lines recs ->
  length lines < fuel ->
  _read_data_message body fuel (feed (encode_block lines f1 f2 bcc) ++ rest)
  = (recs, Finished (Ok tt), rest).
Proof.
  intros Hall Hfuel.
  rewrite encode_block_feed. unfold _read_data_message. cbn [ser_read].
  rewrite CTX_is_CTX. cbn [negb].
  replace fuel with (length lines + S (fuel - length lines - 1)) by lia.
  rewrite (line_or_eof_lines body lines recs _ _ Hall).
  cbn [line_or_eof ser_read]. rewrite Ascii.eqb_refl.
  rewrite app_nil_r, read_trailer_four, Ascii.eqb_refl. reflexivity.
Qed.

(** An accepted identification line is accepted whatever follows its
    terminator, and what follows is left on the channel. *)
Lemma read_identification_frame (line : bytes) (rest : channel)
    (m : IdentificationMessage) :
  ~ In CR line ->
  _read_identification_message (feed (line ++ [CR; LF])) = (Ok m, []) ->
  _read_identification_message (feed (line ++ [CR; LF]) ++ rest) = (Ok m, rest).
Proof.
  intros Hcr. rewrite feed_app. cbn [feed map]. rewrite <- app_assoc. cbn [app].
  change (map Some line) with (feed line).
  unfold _read_identification_message, _read_dataline.
  rewrite !(dataline_loop_plain line) by exact Hcr. cbn [app].
  destruct line as [|c line]; [discriminate|].
  destruct (negb (py_eq (PyInt (ord (item (c :: line) 0))) (PyInt (ord "/")))).
  - destruct (drain (c :: line) []). discriminate.
  - intros H. inversion H. reflexivity.
Qed.

Lemma Forall2_records (parts : list dataset_parts) :
  Forall parts_ok parts ->
  Forall2 (fun l r => plain_line l /\ _read_dataset_structure l = Ok r)
    (map line_of parts) (map record_of parts).
Proof.
  induction 1 as [|p parts Hp _ IH]; cbn [map]; constructor.
  - split; [apply plain_line_of | apply dataset_parser_accepts]; exact Hp.
  - exact IH.
Qed.

(** X19: a whole session.  When the meter answers the sign-on with an
    identification line that the parser accepts, followed by a data block
    of lines with digits, a point and an odd number of fraction digits,
    whose units do not start with a digit, [read] delivers one record for each line, in order, with the
    identifier, the exact value and the unit of the line; it ends
    normally, leaves the port at the meter's baud rate, and has read the
    block to its block check character and nothing after it. *)
Theorem session_reads_whole_block :
  forall (time : nat -> Q) (baud bytesize : Z) (line : bytes)
         (m : IdentificationMessage) (parts : list dataset_parts)
         (f1 f2 bcc : ascii) (fuel : nat) (rest : channel),
    (0 < bytesize + 3 <= 300)%Z ->
    ~ In CR line ->
    _read_identification_message (feed (line ++ [CR; LF])) = (Ok m, []) ->
    Forall parts_ok parts ->
    length parts < fuel ->
    exists s' : Serial,
      read time fuel
        (open_port baud bytesize
           (feed (line ++ [CR; LF])
            ++ feed (encode_block (map line_of parts) f1 f2 bcc) ++ rest))
      = (map record_of parts, Finished (Ok tt), s')
      /\ rx s' = rest
      /\ ser_baudrate s' = baudrate m.
Proof.
  intros time baud bytesize line m parts f1 f2 bcc fuel rest
    Hsize Hcr Hid Hparts Hfuel.
  set (block := feed (encode_block (map line_of parts) f1 f2 bcc) ++ rest).
  set (s := open_port baud bytesize (feed (line ++ [CR; LF]) ++ block)).
  destruct (negotiate_state time s Hsize) as [q [sleeps1 [_ [_ Hneg]]]].
  cbv zeta in Hneg.
  change (rx s) with (feed (line ++ [CR; LF]) ++ block) in Hneg.
  rewrite (read_identification_frame line block m Hcr Hid) in Hneg.
  destruct Hneg as [sleeps2 [_ Hneg]].
  unfold read. rewrite Hneg. cbn [rx]. subst block.
  rewrite (read_data_message_block _read_dataset_structure
             (map line_of parts) (map record_of parts) f1 f2 bcc fuel rest
             (Forall2_records parts Hparts))
    by (rewrite length_map; exact Hfuel).
  eexists. split; [reflexivity|]. split; reflexivity.
Qed.

Lemma session_reads_whole_block_witness :
  exists s' : Serial,
    read (fun k => inject_Z (Z.of_nat k)) 2
      (open_port 300 7
         (feed (B "/XYZ5ABC123" ++ [CR; LF])
          ++ feed (encode_block
                     (map line_of
                        [{| part_id := B "1.8.0"; part_int := B "0015";
                            part_frac := B "557"; part_unit := Some (B "kWh") |}])
                     CR LF "U")
          ++ [Some "x"%char]))
    = (map record_of
         [{| part_id := B "1.8.0"; part_int := B "0015";
             part_frac := B "557"; part_unit := Some (B "kWh") |}],
       Finished (Ok tt), s')
    /\ rx s' = [Some "x"%char]
    /\ ser_baudrate s' = 9600%Z.
Proof.
  apply (session_reads_whole_block (fun k => inject_Z (Z.of_nat k)) 300 7
           (B "/XYZ5ABC123")
           {| manufacturers_identification := B "XYZ";
              baudrate_identification := "5";
              identification := B "ABC1";
              protocol_mode := "C";
              baudrate := 9600 |}
           [{| part_id := B "1.8.0"; part_int := B "0015";
               part_frac := B "557"; part_unit := Some (B "kWh") |}]
           CR LF "U"%char 2 [Some "x"%char]).
  - lia.
  - cbn. intros H; decompose [or] H; try discriminate; contradiction.
  - reflexivity.
  - constructor; [|constructor].
    unfold parts_ok. cbn [part_id part_int part_frac part_unit].
    split; [reflexivity|]. split; [discriminate|]. split; [reflexivity|].
    split; [reflexivity|]. split; [reflexivity|].
    split; [split; reflexivity|].
    split; cbn; intros H; decompose [or] H; try discriminate; contradiction.
  - cbn. lia.
Defined.

Lemma one_char_inv (p : ascii -> bool) (s : bytes) (caps m : captures)
    (k : bytes -> captures -> option captures) :
  one_char p s caps k = Some m ->
  exists x s', s = x :: s' /\ p x = true /\ k s' caps = Some m.
Proof.
  destruct s as [|x s']; cbn [one_char]; [discriminate|].
  destruct (p x) eqn:Hx; [|discriminate].
  intros H. exists x, s'. split; [reflexivity|]. split; [exact Hx|exact H].
Qed.

Section GreedyInversion.

Variable step : bytes -> captures -> (bytes -> captures -> option captures)
                -> option captures.
Variable k : bytes -> captures -> option captures.

(** Where a repetition of single characters succeeds, it has taken a run
    of them and what follows has matched from there. *)
Lemma iterate_chars_inv (p : ascii -> bool) :
  (forall s c k', step s c k' = one_char p s c k') ->
  forall (n : nat) (s : bytes) (caps m : captures),
    iterate step k n s caps = Some m ->
    exists pre post,
      s = pre ++ post /\ forallb p pre = true /\ k post caps = Some m.
Proof.
  intros Hstep. induction n as [|n IH]; intros s caps m H.
  - exists [], s. split; [reflexivity|]. split; [reflexivity|exact H].
  - cbn [iterate] in H. rewrite Hstep in H.
    destruct (one_char p s caps
                (fun s' caps' =>
                   if length s' <? length s then iterate step k n s' caps'
                   else None)) as [m'|] eqn:Hone.
    + inversion H; subst m'. clear H.
      apply one_char_inv in Hone. destruct Hone as [x [s' [-> [Hx Hrec]]]].
      destruct (length s' <? length (x :: s')); [|discriminate Hrec].
      destruct (IH _ _ _ Hrec) as [pre [post [-> [Hpre Hk]]]].
      exists (x :: pre), post. split; [reflexivity|].
      split; [cbn [forallb]; rewrite Hx, Hpre; reflexivity|exact Hk].
    + exists [], s. split; [reflexivity|]. split; [reflexivity|exact H].
Qed.

(** The same for a repetition of pairs whose second character satisfies
    [q]: what it has taken is empty or ends with such a character. *)
Lemma iterate_pairs_inv (p q : ascii -> bool) :
  (forall s c k',
      step s c k' = one_char p s c (fun s1 c1 => one_char q s1 c1 k')) ->
  forall (n : nat) (s : bytes) (caps m : captures),
    iterate step k n s caps = Some m ->
    exists pre post,
      s = pre ++ post
      /\ (pre = [] \/ exists front z, pre = front ++ [z] /\ q z = true)
      /\ k post caps = Some m.
Proof.
  intros Hstep. induction n as [|n IH]; intros s caps m H.
  - exists [], s. split; [reflexivity|]. split; [left; reflexivity|exact H].
  - cbn [iterate] in H. rewrite Hstep in H.
    match type of H with
    | match ?t with _ => _ end = _ => destruct t as [m'|] eqn:Hone
    end.
    + inversion H; subst m'. clear H.
      apply one_char_inv in Hone. destruct Hone as [x [s1 [-> [Hx Hone]]]].
      apply one_char_inv in Hone. destruct Hone as [y [s2 [-> [Hy Hrec]]]].
      destruct (length s2 <? length (x :: y :: s2)); [|discriminate Hrec].
      destruct (IH _ _ _ Hrec) as [pre [post [-> [Hpre Hk]]]].
      exists (x :: y :: pre), post. split; [reflexivity|].
      split; [|exact Hk]. right.
      destruct Hpre as [->|[front [z [-> Hz]]]].
      * exists [x], y. split; [reflexivity|exact Hy].
      * exists (x :: y :: front), z. split; [reflexivity|exact Hz].
    + exists [], s. split; [reflexivity|]. split; [left; reflexivity|exact H].
Qed.

End GreedyInversion.

(** What a match of the pattern says of the text and of its groups. *)
Lemma re_match_dataset_inv (line : bytes) (m : captures) :
  re_match dataset_regex line = Some m ->
  exists (id v : bytes) (unit : option bytes) (rest : bytes),
    line = id ++ "("%char :: v
           ++ match unit with
              | Some u => "*"%char :: u
              | None => []
              end ++ ")"%char :: rest
    /\ m = match unit with
           | Some u => [("Unit"%string, u)]
           | None => []
           end ++ [("Value"%string, v); ("ID"%string, id)]
    /\ forallb id_char id = true
    /\ (exists d mid z, v = d :: mid ++ [z]
                        /\ is_digit d = true /\ is_digit z = true)
    /\ match unit with
       | Some u => u <> [] /\ forallb id_char u = true
       | None => True
       end.
Proof.
  unfold re_match, dataset_regex, Plus. cbn [rmatch]. intros H.
  apply (iterate_chars_inv _ _ id_char) in H; [|reflexivity].
  destruct H as [id [post [-> [Hid H]]]].
  rewrite firstn_prefix in H.
  apply one_char_inv in H. destruct H as [x [post1 [-> [Hx H]]]].
  apply Ascii.eqb_eq in Hx. subst x.
  apply one_char_inv in H. destruct H as [d [post2 [-> [Hd H]]]].
  apply (iterate_chars_inv _ _ is_digit) in H; [|reflexivity].
  destruct H as [ds [post3 [-> [Hds H]]]].
  apply one_char_inv in H. destruct H as [a [post4 [-> [Ha H]]]].
  apply one_char_inv in H. destruct H as [z [post5 [-> [Hz H]]]].
  apply (iterate_pairs_inv _ _ not_newline is_digit) in H; [|reflexivity].
  destruct H as [pairs [post6 [-> [Hpairs H]]]].
  assert (Hv : exists d0 mid z0,
             d :: ds ++ a :: z :: pairs = d0 :: mid ++ [z0]
             /\ is_digit d0 = true /\ is_digit z0 = true).
  { destruct Hpairs as [->|[front [z' [-> Hz']]]].
    - exists d, (ds ++ [a]), z. rewrite <- app_assoc. auto.
    - exists d, (ds ++ a :: z :: front), z'. rewrite <- app_assoc. auto. }
  clear Hpairs.
  replace (d :: ds ++ a :: z :: pairs ++ post6)
    with ((d :: ds ++ a :: z :: pairs) ++ post6) in *
    by (cbn [app]; rewrite <- app_assoc; reflexivity).
  rewrite firstn_prefix in H.
  remember (d :: ds ++ a :: z :: pairs) as v eqn:Ev. clear Ev.
  match type of H with
  | match ?t with _ => _ end = _ => destruct t as [m'|] eqn:Hunit
  end.
  - inversion H; subst m'. clear H.
    apply one_char_inv in Hunit. destruct Hunit as [x [s1 [-> [Hx H]]]].
    apply Ascii.eqb_eq in Hx. subst x.
    apply one_char_inv in H. destruct H as [u1 [s2 [-> [Hu1 H]]]].
    apply (iterate_chars_inv _ _ id_char) in H; [|reflexivity].
    destruct H as [us [post7 [-> [Hus H]]]].
    apply one_char_inv in H. destruct H as [x [rest [-> [Hx H]]]].
    apply Ascii.eqb_eq in Hx. subst x.
    change (u1 :: us ++ ")"%char :: rest) with ((u1 :: us) ++ ")"%char :: rest) in H.
    rewrite firstn_prefix in H. inversion H; subst m. clear H.
    exists id, v, (Some (u1 :: us)), rest.
    split; [reflexivity|]. split; [reflexivity|]. split; [exact Hid|].
    split; [exact Hv|]. split; [discriminate|].
    cbn [forallb]. change (id_char u1) with (not_in ["("; ")"; "/"; "!"]%char u1).
    rewrite Hu1, Hus. reflexivity.
  - apply one_char_inv in H. destruct H as [x [rest [-> [Hx H]]]].
    apply Ascii.eqb_eq in Hx. subst x. inversion H; subst m. clear H.
    exists id, v, None, rest.
    split; [reflexivity|]. split; [reflexivity|]. split; [exact Hid|].
    split; [exact Hv|exact I].
Qed.

Lemma scan_number_finite (negative : bool) (s : bytes) (x : Decimal) :
  scan_number negative s = Some x ->
  exists coefficient exponent, x = Finite negative coefficient exponent.
Proof.
  unfold scan_number.
  destruct (span_digits s) as [intpart rest].
  destruct (match rest with
            | "."%char :: t => span_digits t
            | _ => ([], rest)
            end) as [fracpart rest'].
  destruct (intpart ++ fracpart); [discriminate|].
  destruct (scan_exponent rest'); [|discriminate].
  intros H. inversion H. eauto.
Qed.

Lemma scan_special_digit_led (negative : bool) (d : ascii) (s : bytes) :
  is_digit d = true -> scan_special negative (d :: s) = None.
Proof.
  intros H.
  destruct d as [[] [] [] [] [] [] [] []]; try discriminate H; reflexivity.
Qed.

(** [Decimal] on a text that starts and ends with a digit: a finite number
    that is not negative, or [InvalidOperation]. *)
Lemma Decimal_of_digit_led (d z : ascii) (mid : bytes) (x : Decimal) :
  is_digit d = true -> is_digit z = true ->
  Decimal_of_str (d :: mid ++ [z]) = Ok x ->
  exists coefficient exponent, x = Finite false coefficient exponent.
Proof.
  intros Hd Hz. unfold Decimal_of_str.
  rewrite (strip_digits_around d z mid Hd Hz), (sign_of_digit d _ Hd).
  destruct (scan_number false (d :: mid ++ [z])) as [y|] eqn:Hnum.
  - intros H. inversion H; subst y. exact (scan_number_finite _ _ _ Hnum).
  - rewrite (scan_special_digit_led false d _ Hd). discriminate.
Qed.

(** X12: what every record of the Dataset Parser guarantees.  The line
    starts with the identifier, an opening parenthesis, the text of the
    value, the unit after an asterisk if there is one, and a closing
    parenthesis.  The identifier and the unit hold none of the characters
    ( ) / and !, and a unit is never empty.  The value is a finite decimal
    that is not negative: never a NaN, never an infinity. *)
Theorem dataset_record_shape :
  forall (line : bytes) (r : DataSetMessage),
    _read_dataset_structure line = Ok r ->
    (exists v rest : bytes,
        line = ds_id r ++ "("%char :: v
               ++ match ds_unit r with
                  | Some u => "*"%char :: u
                  | None => []
                  end ++ ")"%char :: rest
        /\ Decimal_of_str v = Ok (ds_value r))
    /\ forallb id_char (ds_id r) = true
    /\ (exists coefficient exponent,
           ds_value r = Finite false coefficient exponent)
    /\ match ds_unit r with
       | Some u => u <> [] /\ forallb id_char u = true
       | None => True
       end.
Proof.
  intros line r. unfold _read_dataset_structure.
  destruct (re_match dataset_regex line) as [m|] eqn:Hm; [|discriminate].
  destruct (re_match_dataset_inv line m Hm)
    as [id [v [unit [rest [Hline [Hcaps [Hid [[d [mid [z [Hv [Hd Hz]]]]] Hunit]]]]]]]].
  assert (Hg1 : group m "ID" = Some id) by (subst m; destruct unit; reflexivity).
  assert (Hg2 : group m "Value" = Some v) by (subst m; destruct unit; reflexivity).
  assert (Hg3 : group m "Unit" = unit) by (subst m; destruct unit; reflexivity).
  clear Hcaps Hm. rewrite Hg1, Hg2, Hg3. cbn [str].
  destruct (Decimal_of_str v) as [x|e] eqn:Hdec; cbn [bind]; [|discriminate].
  intros H.
  assert (Hr : r = {| ds_id := id; ds_value := x; ds_unit := unit |})
    by (destruct unit; inversion H; reflexivity).
  subst r. cbn [ds_id ds_value ds_unit]. clear H.
  split; [exists v, rest; split; [exact Hline|exact Hdec]|].
  split; [exact Hid|]. split; [|exact Hunit].
  rewrite Hv in Hdec. exact (Decimal_of_digit_led d z mid x Hd Hz Hdec).
Qed.

Lemma dataset_record_shape_witness :
  exists coefficient exponent,
    ds_value {| ds_id := B "C.1"; ds_value := Finite false 12 3; ds_unit := None |}
    = Finite false coefficient exponent.
Proof.
  apply (dataset_record_shape (B "C.1(12e3)")
           {| ds_id := B "C.1"; ds_value := Finite false 12 3; ds_unit := None |}).
  reflexivity.
Defined.

(** ** Line Reader and Data Block Reader: what a line is *)

Lemma eom_step_le (m : nat) (b : ascii) : eom_step m b <= S m.
Proof. unfold eom_step. destruct (py_eq _ _); lia. Qed.

Lemma pop_last_two (seed extra : bytes) :
  2 <= length extra ->
  exists extra', pop_last (pop_last (seed ++ extra)) = seed ++ extra'.
Proof.
  intros Hlen.
  destruct (exists_last (l := extra)) as [e1 [y He1]];
    [intros ->; simpl in Hlen; lia|].
  subst extra. rewrite length_app in Hlen. simpl in Hlen.
  destruct (exists_last (l := e1)) as [e0 [x He0]];
    [intros ->; simpl in Hlen; lia|].
  subst e1. exists e0.
  rewrite !app_assoc, pop_last_snoc, pop_last_snoc. reflexivity.
Qed.

(** The counter never runs ahead of the bytes that the loop has appended,
    so the two [pop]s take bytes that the loop has read. *)
Lemma dataline_loop_extends (ch : channel) :
  forall (m : nat) (seed extra out : bytes) (ch' : channel),
    m <= length extra ->
    dataline_loop m (seed ++ extra) ch = (out, ch') ->
    exists extra', out = seed ++ extra'.
Proof.
  induction ch as [|[b|] ch IH]; intros m seed extra out ch' Hm H;
    cbn [dataline_loop] in H.
  - inversion H; subst. exists extra. reflexivity.
  - pose proof (eom_step_le m b) as Hstep.
    rewrite <- app_assoc in H.
    destruct (Nat.eqb (eom_step m b) (length eom)) eqn:Hstop.
    + apply Nat.eqb_eq in Hstop. cbn [length eom] in Hstop.
      inversion H; subst.
      apply pop_last_two. rewrite length_app. simpl. lia.
    + apply (IH _ _ _ _ _) in H; [exact H|].
      rewrite length_app. simpl. lia.
  - inversion H; subst. exists extra. reflexivity.
Qed.

(** X20: the Line Reader never takes a byte away from what it was given.
    The returned line starts with the seeded bytes, whatever the channel
    delivers: the two bytes removed at a terminator are always bytes that
    this call has read. *)
Theorem read_dataline_keeps_seed :
  forall (seed : option bytes) (ch : channel),
    exists extra : bytes,
      fst (_read_dataline seed ch) = seed_bytes seed ++ extra
      /\ length extra <= length ch.
Proof.
  intros seed ch. unfold _read_dataline.
  change (match seed with
          | Some msg => msg
          | None => []
          end) with (seed_bytes seed).
  destruct (dataline_loop 0 (seed_bytes seed) ch) as [out ch'] eqn:Hloop.
  pose proof Hloop as Hext.
  rewrite <- (app_nil_r (seed_bytes seed)) in Hext.
  apply dataline_loop_extends in Hext; [|simpl; lia].
  destruct Hext as [extra Hout]. exists extra. cbn [fst].
  split; [exact Hout|].
  destruct (dataline_loop_conserves ch 0 (seed_bytes seed) out ch'
              (or_introl eq_refl) Hloop) as [taken [[Hch Hlen] | [Hlen Hch]]].
  - apply (f_equal (@length ascii)) in Hlen.
    apply (f_equal (@length (option ascii))) in Hch.
    rewrite Hout in Hlen. unfold feed in Hch.
    rewrite !length_app in *. rewrite length_map in Hch. simpl in Hlen. lia.
  - rewrite Hout in Hlen. apply app_inv_head in Hlen. subst taken.
    destruct Hch as [Hch | [Hch _]];
      apply (f_equal (@length (option ascii))) in Hch; unfold feed in Hch;
      rewrite ?length_app, length_map in Hch; lia.
Qed.

Lemma line_or_eof_starts (fuel : nat) :
  forall ch : channel,
    Forall (fun l => exists c tl, l = c :: tl /\ c <> ctrl_EOF)
      (fst (fst (line_or_eof (fun dataline => Ok dataline) fuel ch))).
Proof.
  induction fuel as [|fuel IH]; intros ch; [constructor|].
  destruct ch as [|[c|] ch1]; cbn [line_or_eof ser_read]; try apply IH.
  destruct (Ascii.eqb c ctrl_EOF) eqn:Hc; [constructor|].
  apply Ascii.eqb_neq in Hc.
  destruct (_read_dataline (Some [c]) ch1) as [dataline ch2] eqn:Hline.
  specialize (IH ch2).
  destruct (line_or_eof (fun dataline => Ok dataline) fuel ch2) as [[ys e] ch3].
  cbn [fst] in *. constructor; [|exact IH].
  unfold _read_dataline in Hline.
  change [c] with ([c] ++ []) in Hline.
  apply dataline_loop_extends in Hline; [|simpl; lia].
  destruct Hline as [extra ->]. exists c, extra. split; [reflexivity|exact Hc].
Qed.

(** X21: no line that the Data Block Reader yields is empty, and none
    starts with the end-of-block byte, on any channel and for any length
    of the run. *)
Theorem yielded_lines_are_not_empty :
  forall (fuel : nat) (ch : channel),
    Forall (fun l => exists c tl, l = c :: tl /\ c <> ctrl_EOF)
      (fst (fst (raw_lines fuel ch))).
Proof.
  intros fuel ch. unfold raw_lines, _read_data_message.
  destruct ch as [|[c|] ch1]; cbn [ser_read fst]; try constructor.
  destruct (negb (Ascii.eqb c ctrl_CTX)); [constructor|].
  pose proof (line_or_eof_starts fuel ch1) as H.
  destruct (line_or_eof (fun dataline => Ok dataline) fuel ch1) as [[ys e] ch2].
  cbn [fst] in H.
  destruct e; [destruct (read_trailer ch2)|..]; exact H.
Qed.



(** ** An instance of the rejection above *)

Lemma dataset_parser_rejects_even_fraction_witness :
  _read_dataset_structure (dataset_line (B "1.8.0") (B "0015") (B "55") (Some (B "kWh")))
  = Raise (InvalidMessageError UnableToParseDataset
             (dataset_line (B "1.8.0") (B "0015") (B "55") (Some (B "kWh")))).
Proof.
  apply (dataset_parser_rejects_even_fraction
           (B "1.8.0") (B "0015") (B "55") (Some (B "kWh")));
    reflexivity.
Defined.

(** ** Timing Controller: when it sleeps *)

Lemma Qltb_lt (a b : Q) : Qltb a b = true <-> (a < b)%Q.
Proof. unfold Qltb, Qlt. apply Z.ltb_lt. Qed.

Lemma expected_delay_defined (n : nat) (baud bytesize : Z) :
  (0 < bytesize + 3 <= baud)%Z ->
  exists q, expected_delay n baud bytesize = Ok q.
Proof.
  intros H. unfold expected_delay. cbv zeta.
  assert (Hpos : (0 < baud / (bytesize + 3))%Z) by (apply Z.div_str_pos; lia).
  destruct (Z.eqb_spec (baud / (bytesize + 3)) 0) as [E|_]; [lia|].
  eexists. reflexivity.
Qed.

(** X22: [_write_blocking] writes, flushes and then sleeps once or not at
    all.  It never sleeps on a port marked blocking; where it sleeps, the
    time slept is positive, the expression that the guard of line 93 has
    just found to be greater than 0; and it changes neither the mark nor
    the baud rate of the port. *)
Theorem write_blocking_sleeps_once :
  forall (time : nat -> Q) (s : Serial) (data : bytes),
    (0 < ser_bytesize s + 3 <= ser_baudrate s)%Z ->
    exists (s' : Serial) (sleeps : list event),
      _write_blocking time data s = (Ok tt, s')
      /\ trace s' = trace s ++ [Write data; Flush] ++ sleeps
      /\ length sleeps <= 1
      /\ forallb is_sleep sleeps = true
      /\ Forall positive_sleep sleeps
      /\ (ser_is_blocking s = true -> sleeps = [])
      /\ ser_is_blocking s' = ser_is_blocking s
      /\ ser_baudrate s' = ser_baudrate s.
Proof.
  intros time s data Hsize.
  destruct (expected_delay_defined (length data) _ _ Hsize) as [q Hq].
  set (delay := (q - (time (S (ticks s)) - time (ticks s)))%Q).
  set (sleeps := if negb (ser_is_blocking s) && Qltb 0 delay
                 then [Sleep delay] else []).
  assert (Hrun : _write_blocking time data s
                 = (Ok tt,
                    {| rx := rx s; ser_baudrate := ser_baudrate s;
                       ser_bytesize := ser_bytesize s;
                       ser_is_blocking := ser_is_blocking s;
                       ticks := S (S (ticks s));
                       trace := trace s ++ [Write data; Flush] ++ sleeps |})).
  { unfold _write_blocking, mbind, get, lift, now, emit, ret.
    cbn [ser_baudrate ser_bytesize ticks trace rx ser_is_blocking].
    rewrite Hq. fold delay. subst sleeps.
    destruct (negb (ser_is_blocking s) && Qltb 0 delay);
      cbn [ser_baudrate ser_bytesize ticks trace rx ser_is_blocking];
      rewrite <- ?app_assoc; reflexivity. }
  eexists. exists sleeps. split; [exact Hrun|].
  cbn [trace ser_is_blocking ser_baudrate]. split; [reflexivity|].
  subst sleeps.
  destruct (ser_is_blocking s); cbn [negb andb].
  - split; [simpl; lia|]. split; [reflexivity|]. split; [constructor|].
    split; [intros _; reflexivity | split; reflexivity].
  - destruct (Qltb 0 delay) eqn:Hpos.
    + split; [simpl; lia|]. split; [reflexivity|].
      split; [|split; [discriminate | split; reflexivity]].
      constructor; [|constructor]. apply Qltb_lt. exact Hpos.
    + split; [simpl; lia|]. split; [reflexivity|]. split; [constructor|].
      split; [discriminate | split; reflexivity].
Qed.

Lemma write_blocking_sleeps_once_witness :
  let s := {| rx := []; ser_baudrate := 300; ser_bytesize := 7;
              ser_is_blocking := false; ticks := 0; trace := [] |} in
  (0 < ser_bytesize s + 3 <= ser_baudrate s)%Z
  /\ exists (s' : Serial) (sleeps : list event),
       _write_blocking (fun k => inject_Z (Z.of_nat k) / 100)%Q (B "abcdef") s
       = (Ok tt, s')
       /\ trace s' = trace s ++ [Write (B "abcdef"); Flush] ++ sleeps
       /\ length sleeps <= 1
       /\ forallb is_sleep sleeps = true
       /\ Forall positive_sleep sleeps
       /\ (ser_is_blocking s = true -> sleeps = [])
       /\ ser_is_blocking s' = ser_is_blocking s
       /\ ser_baudrate s' = ser_baudrate s.
Proof.
  intros s.
  assert (Hsize : (0 < ser_bytesize s + 3 <= ser_baudrate s)%Z) by (cbn; lia).
  split; [exact Hsize|].
  exact (write_blocking_sleeps_once
           (fun k => inject_Z (Z.of_nat k) / 100)%Q s (B "abcdef") Hsize).
Defined.

(** X23: the sign-on of [read] sets 300 baud, writes the sign-on message,
    flushes and then sleeps once or not at all.  It sleeps exactly when it
    marks the port non-blocking: with a sleep the port is marked
    non-blocking, without one the mark is left as it was.  Where it
    sleeps, the time slept is positive: the expected delay less the
    measured one, which the guard of line 68 has just found to be the
    smaller. *)
Theorem sign_on_marks_when_it_sleeps :
  forall (time : nat -> Q) (s : Serial),
    (0 < ser_bytesize s + 3 <= 300)%Z ->
    exists (s' : Serial) (sleeps : list event),
      sign_on time s = (Ok tt, s')
      /\ trace s' = trace s ++ [SetBaudrate 300; Write msg_signon; Flush] ++ sleeps
      /\ length sleeps <= 1
      /\ forallb is_sleep sleeps = true
      /\ Forall positive_sleep sleeps
      /\ (sleeps = [] -> ser_is_blocking s' = ser_is_blocking s)
      /\ (sleeps <> [] -> ser_is_blocking s' = false).
Proof.
  intros time s Hsize.
  destruct (expected_delay_300 (length msg_signon) _ Hsize) as [q Hq].
  pose proof (sign_on_state time s q Hq) as Hrun. cbv zeta in Hrun.
  set (d := (time (S (ticks s)) - time (ticks s))%Q) in *.
  eexists. exists (if Qltb d q then [Sleep (q - d)%Q] else []).
  split; [exact Hrun|]. cbn [trace ser_is_blocking].
  split; [reflexivity|].
  destruct (Qltb d q) eqn:Hlt.
  - split; [simpl; lia|]. split; [reflexivity|].
    split; [|split; [discriminate|reflexivity]].
    constructor; [|constructor]. cbn [positive_sleep].
    apply Qltb_lt in Hlt. unfold Qminus. rewrite <- Qlt_minus_iff. exact Hlt.
  - split; [simpl; lia|]. split; [reflexivity|].
    split; [constructor|]. split; [reflexivity|congruence].
Qed.

Lemma sign_on_marks_when_it_sleeps_witness :
  (0 < ser_bytesize (open_port 9600 8 []) + 3 <= 300)%Z
  /\ exists (s' : Serial) (sleeps : list event),
       sign_on (fun k => inject_Z (Z.of_nat k) / 100)%Q (open_port 9600 8 [])
       = (Ok tt, s')
       /\ trace s' = [] ++ [SetBaudrate 300; Write msg_signon; Flush] ++ sleeps
       /\ length sleeps <= 1
       /\ forallb is_sleep sleeps = true
       /\ Forall positive_sleep sleeps
       /\ (sleeps = [] -> ser_is_blocking s' = true)
       /\ (sleeps <> [] -> ser_is_blocking s' = false).
Proof.
  assert (Hsize : (0 < ser_bytesize (open_port 9600 8 []) + 3 <= 300)%Z)
    by (cbn; lia).
  split; [exact Hsize|].
  exact (sign_on_marks_when_it_sleeps
           (fun k => inject_Z (Z.of_nat k) / 100)%Q (open_port 9600 8 []) Hsize).
Defined.

(** ** Dataset Parser: values without a decimal point *)

Section GiveBack.

Variable step : bytes -> captures -> (bytes -> captures -> option captures)
                -> option captures.
Variable k : bytes -> captures -> option captures.

(** A greedy repetition of single characters that has to give characters
    back: it succeeds as the repetition does from the place where the
    characters given back start. *)
Lemma iterate_chars_give_back (p : ascii -> bool) (post : bytes)
    (caps m : captures) :
  (forall s c k', step s c k' = one_char p s c k') ->
  (forall n, iterate step k n post caps = Some m) ->
  forall (pre : bytes) (n : nat),
    forallb p pre = true ->
    length pre <= n ->
    iterate step k n (pre ++ post) caps = Some m.
Proof.
  intros Hstep Hpost.
  induction pre as [|x pre IH]; intros n Hpre Hn; [apply Hpost|].
  destruct n as [|n]; [simpl in Hn; lia|].
  cbn [forallb] in Hpre. apply andb_prop in Hpre. destruct Hpre as [Hx Hpre].
  cbn [app iterate]. rewrite Hstep. cbn [one_char]. rewrite Hx.
  replace (length (pre ++ post) <? length (x :: pre ++ post)) with true
    by (symmetry; apply Nat.ltb_lt; simpl; lia).
  rewrite IH by (auto; simpl in Hn; lia). reflexivity.
Qed.

(** The repetition gives back two characters when what follows fails
    after all of them and after all but one of them. *)
Lemma iterate_chars_two_back (p : ascii -> bool) (a b : ascii) (post : bytes)
    (caps m : captures) :
  (forall s c k', step s c k' = one_char p s c k') ->
  p a = true -> p b = true ->
  match post with
  | [] => True
  | c :: _ => p c = false
  end ->
  k post caps = None ->
  k (b :: post) caps = None ->
  k (a :: b :: post) caps = Some m ->
  forall n, iterate step k n (a :: b :: post) caps = Some m.
Proof.
  intros Hstep Ha Hb Hpost Hk0 Hk1 Hk2.
  assert (H0 : forall n, iterate step k n post caps = None).
  { intros [|n]; [exact Hk0|]. cbn [iterate]. rewrite Hstep.
    destruct post as [|c post]; cbn [one_char]; [exact Hk0|].
    rewrite Hpost. exact Hk0. }
  assert (H1 : forall n, iterate step k n (b :: post) caps = None).
  { intros [|n]; [exact Hk1|]. cbn [iterate]. rewrite Hstep.
    cbn [one_char]. rewrite Hb.
    replace (length post <? length (b :: post)) with true
      by (symmetry; apply Nat.ltb_lt; simpl; lia).
    rewrite H0. exact Hk1. }
  intros [|n]; [exact Hk2|]. cbn [iterate]. rewrite Hstep.
  cbn [one_char]. rewrite Ha.
  replace (length (b :: post) <? length (a :: b :: post)) with true
    by (symmetry; apply Nat.ltb_lt; simpl; lia).
  rewrite H1. exact Hk2.
Qed.

End GiveBack.

(** What follows the digits of a value: the unit or the closing
    parenthesis.  It does not start with a digit, and no pair of the
    pattern starts there. *)
Lemma after_digits (unit : option bytes) :
  unit_ok unit ->
  exists t1 tail,
    match unit with
    | Some u => "*"%char :: u
    | None => []
    end ++ [")"%char] = t1 :: tail
    /\ is_digit t1 = false
    /\ match tail with
       | [] => True
       | t2 :: _ => is_digit t2 = false
       end.
Proof.
  destruct unit as [[|u1 u]|]; cbn [unit_ok app].
  - intros [_ []].
  - intros [_ Hu1]. exists "*"%char, (u1 :: u ++ [")"%char]).
    split; [reflexivity|]. split; [reflexivity|exact Hu1].
  - intros _. exists ")"%char, []. split; [reflexivity|]. split; [reflexivity|exact I].
Qed.

Lemma re_match_integer_line_long (id ds : bytes) (a b : ascii)
    (unit : option bytes) :
  forallb id_char id = true ->
  ds <> [] ->
  forallb is_digit ds = true ->
  is_digit a = true -> is_digit b = true ->
  unit_ok unit ->
  re_match dataset_regex (integer_line id (ds ++ [a; b]) unit)
  = Some (match unit with
          | Some u => [("Unit"%string, u)]
          | None => []
          end ++ [("Value"%string, ds ++ [a; b]); ("ID"%string, id)]).
Proof.
  intros Hid Hne Hds Ha Hb Hunit.
  unfold re_match, dataset_regex, Plus, integer_line.
  cbn [rmatch].
  eapply iterate_chars with (p := id_char);
    [reflexivity | reflexivity | | exact Hid | rewrite length_app; lia].
  cbn [one_char]. rewrite Ascii.eqb_refl. rewrite firstn_prefix.
  destruct ds as [|d ds]; [congruence|].
  cbn [forallb] in Hds. apply andb_prop in Hds. destruct Hds as [Hd Hds].
  cbn [app one_char]. rewrite Hd.
  pose proof (digit_not_newline a Ha) as Hna.
  pose proof (digit_not_newline b Hb) as Hnb.
  rewrite <- !app_assoc. cbn [app].
  eapply iterate_chars_give_back with (p := is_digit);
    [reflexivity | | exact Hds | rewrite length_app; lia].
  destruct unit as [[|u1 u]|]; cbn [unit_ok] in Hunit.
  - destruct Hunit as [_ []].
  - destruct Hunit as [Hu Hu1].
    cbn [forallb] in Hu. apply andb_prop in Hu. destruct Hu as [Hu1c Hu].
    cbn [app].
    apply iterate_chars_two_back with (p := is_digit);
      [reflexivity | exact Ha | exact Hb | reflexivity | ..].
    + cbn [one_char]. change (not_newline "*") with true. cbv iota.
      rewrite Hu1. reflexivity.
    + cbn [one_char]. rewrite Hnb. reflexivity.
    + cbn [one_char]. rewrite Hna, Hb.
      eapply iterate_pairs with (p := not_newline) (q := is_digit) (pre := []);
        [reflexivity | cbn [app]; rewrite Hu1; apply andb_false_r | | reflexivity
         | reflexivity | apply Nat.le_0_l].
      cbn [app one_char]. rewrite Ascii.eqb_refl.
      change (not_in ["("%char; ")"%char; "/"%char; "!"%char]) with id_char.
      rewrite Hu1c.
      erewrite iterate_chars with (p := id_char) (post := [")"%char]);
        [reflexivity | reflexivity | reflexivity | | exact Hu
         | rewrite length_app; lia].
      cbn [one_char]. rewrite Ascii.eqb_refl.
      change (u1 :: u ++ [")"%char]) with ((u1 :: u) ++ [")"%char]).
      rewrite firstn_prefix.
      replace (d :: ds ++ a :: b :: "*"%char :: (u1 :: u) ++ [")"%char])
        with ((d :: ds ++ [a; b]) ++ "*"%char :: (u1 :: u) ++ [")"%char])
        by (cbn [app]; rewrite <- app_assoc; reflexivity).
      rewrite firstn_prefix. reflexivity.
  - cbn [app].
    apply iterate_chars_two_back with (p := is_digit);
      [reflexivity | exact Ha | exact Hb | reflexivity | ..].
    + reflexivity.
    + cbn [one_char]. rewrite Hnb. reflexivity.
    + cbn [one_char]. rewrite Hna, Hb.
      eapply iterate_pairs with (p := not_newline) (q := is_digit) (pre := []);
        [reflexivity | exact I | | reflexivity | reflexivity | apply Nat.le_0_l].
      cbn [app one_char]. change (Ascii.eqb "*" ")") with false. cbv iota.
      rewrite Ascii.eqb_refl.
      replace (d :: ds ++ [a; b; ")"%char])
        with ((d :: ds ++ [a; b]) ++ [")"%char])
        by (cbn [app]; rewrite <- app_assoc; reflexivity).
      rewrite firstn_prefix. reflexivity.
Qed.

(** A pair of the pattern needs a digit in the second place. *)
Lemma pair_fails (s : bytes) (caps : captures)
    (k : bytes -> captures -> option captures) :
  match s with
  | _ :: c2 :: _ => is_digit c2 = false
  | _ => True
  end ->
  one_char not_newline s caps (fun s1 c1 => one_char is_digit s1 c1 k) = None.
Proof.
  destruct s as [|c1 [|c2 s]]; cbn [one_char]; intros H.
  - reflexivity.
  - destruct (not_newline c1); reflexivity.
  - rewrite H. destruct (not_newline c1); reflexivity.
Qed.

Lemma re_match_integer_line_short (id ds : bytes) (unit : option bytes) :
  forallb id_char id = true ->
  forallb is_digit ds = true ->
  length ds <= 2 ->
  unit_ok unit ->
  re_match dataset_regex (integer_line id ds unit) = None.
Proof.
  intros Hid Hds Hlen Hunit.
  destruct (after_digits unit Hunit) as [t1 [tail [Htail [Ht1 Ht2]]]].
  unfold re_match, dataset_regex, Plus, integer_line.
  cbn [rmatch]. rewrite Htail.
  apply iterate_chars_none with (p := id_char); [reflexivity|].
  intros pre post Hsplit Hpre.
  destruct (split_at_stop id_char "(" (ds ++ t1 :: tail) eq_refl
              pre post id (eq_sym Hsplit) Hpre) as [mid [Hmid ->]].
  destruct mid as [|c mid]; cbn [app one_char].
  - rewrite Ascii.eqb_refl.
    destruct ds as [|a [|b [|c ds]]]; cbn [app one_char];
      [rewrite Ht1; reflexivity | | | simpl in Hlen; lia];
      cbn [forallb] in Hds; apply andb_prop in Hds; destruct Hds as [Ha Hds];
      rewrite Ha;
      (apply iterate_chars_none with (p := is_digit); [reflexivity|]);
      intros pre2 post2 Hsplit2 Hpre2.
    + destruct pre2 as [|x pre2]; cbn [app] in Hsplit2.
      * subst post2. apply pair_fails. exact Ht2.
      * inversion Hsplit2; subst x. cbn [forallb] in Hpre2.
        rewrite Ht1 in Hpre2. discriminate Hpre2.
    + destruct pre2 as [|x [|y pre2]]; cbn [app] in Hsplit2.
      * subst post2. apply pair_fails. exact Ht1.
      * inversion Hsplit2; subst. apply pair_fails. exact Ht2.
      * inversion Hsplit2; subst. cbn [forallb] in Hpre2.
        rewrite Ht1 in Hpre2. rewrite andb_false_r in Hpre2. discriminate Hpre2.
  - assert (Hc : id_char c = true).
    { rewrite Hmid, forallb_app in Hid. apply andb_prop in Hid.
      destruct Hid as [_ Hid]. cbn [forallb] in Hid.
      apply andb_prop in Hid. tauto. }
    destruct (Ascii.eqb_spec "("%char c) as [<-|_]; [discriminate Hc|reflexivity].
Qed.

Lemma Decimal_of_digits (ds : bytes) :
  2 <= length ds ->
  forallb is_digit ds = true ->
  Decimal_of_str ds = Ok (Finite false (int_of_digits ds) 0).
Proof.
  intros Hlen Hds.
  destruct ds as [|d ds]; [simpl in Hlen; lia|].
  destruct (exists_last (l := ds)) as [mid [z Hz]];
    [intros ->; simpl in Hlen; lia|].
  subst ds.
  assert (Hd : is_digit d = true).
  { cbn [forallb] in Hds. apply andb_prop in Hds. tauto. }
  assert (Hzd : is_digit z = true).
  { cbn [forallb] in Hds. apply andb_prop in Hds. destruct Hds as [_ Hds].
    rewrite forallb_app in Hds. apply andb_prop in Hds.
    destruct Hds as [_ Hds]. cbn [forallb] in Hds.
    apply andb_prop in Hds. tauto. }
  unfold Decimal_of_str.
  rewrite (strip_digits_around d z mid Hd Hzd), (sign_of_digit d _ Hd).
  unfold scan_number.
  rewrite <- (app_nil_r (d :: mid ++ [z])) at 1.
  rewrite (span_digits_all _ [] Hds) by exact I.
  cbn [app scan_exponent length]. rewrite app_nil_r. reflexivity.
Qed.

(** X24: values without a decimal point.  On a line ID(DIGITS) or
    ID(DIGITS*UNIT), with a unit that does not start with a digit, the
    Dataset Parser returns the record with the integer
    when there are three digits or more, and raises InvalidMessageError
    when there are fewer: the pattern of line 24 needs a digit and at
    least one pair of characters for a value. *)
Theorem dataset_parser_on_integers :
  forall (id ds : bytes) (unit : option bytes),
    forallb id_char id = true ->
    forallb is_digit ds = true ->
    unit_ok unit ->
    _read_dataset_structure (integer_line id ds unit)
    = if 3 <=? length ds
      then Ok {| ds_id := id;
                 ds_value := Finite false (int_of_digits ds) 0;
                 ds_unit := unit |}
      else Raise (InvalidMessageError UnableToParseDataset
                    (integer_line id ds unit)).
Proof.
  intros id ds unit Hid Hds Hunit. unfold _read_dataset_structure.
  destruct (Nat.leb_spec 3 (length ds)) as [Hlong|Hshort].
  - destruct (exists_last (l := ds)) as [ds1 [b Hb]];
      [intros ->; simpl in Hlong; lia|].
    destruct (exists_last (l := ds1)) as [ds2 [a Ha]];
      [intros ->; subst ds; simpl in Hlong; lia|].
    assert (Hds2 : ds = ds2 ++ [a; b])
      by (rewrite Hb, Ha, <- app_assoc; reflexivity).
    assert (Hne : ds2 <> []).
    { intros ->. rewrite Hds2 in Hlong. simpl in Hlong. lia. }
    pose proof Hds as Hall. rewrite Hds2, forallb_app in Hall.
    apply andb_prop in Hall. destruct Hall as [Hd2 Hab].
    cbn [forallb] in Hab. apply andb_prop in Hab. destruct Hab as [Had Hab].
    apply andb_prop in Hab. destruct Hab as [Hbd _].
    pose proof (re_match_integer_line_long id ds2 a b unit
                  Hid Hne Hd2 Had Hbd Hunit) as Hm.
    rewrite <- Hds2 in Hm. rewrite Hm.
    match goal with
    | |- context [group ?caps "ID"] => remember caps as m eqn:Em
    end.
    assert (Hg1 : group m "ID" = Some id) by (subst m; destruct unit; reflexivity).
    assert (Hg2 : group m "Value" = Some ds)
      by (subst m; destruct unit; reflexivity).
    assert (Hg3 : group m "Unit" = unit) by (subst m; destruct unit; reflexivity).
    clear Em. rewrite Hg1, Hg2, Hg3. cbn [str].
    rewrite (Decimal_of_digits ds) by (try lia; exact Hds). cbn [bind].
    destruct unit; reflexivity.
  - rewrite (re_match_integer_line_short id ds unit Hid Hds) by (try lia; exact Hunit).
    reflexivity.
Qed.

Lemma dataset_parser_on_integers_witness :
  _read_dataset_structure (integer_line (B "0.0.0") (B "12345678") None)
  = Ok {| ds_id := B "0.0.0";
          ds_value := Finite false 12345678 0;
          ds_unit := None |}
  /\ _read_dataset_structure (integer_line (B "F.F") (B "00") None)
     = Raise (InvalidMessageError UnableToParseDataset (B "F.F(00)")).
Proof.
  split.
  - apply (dataset_parser_on_integers (B "0.0.0") (B "12345678") None);
      [reflexivity | reflexivity | exact I].
  - apply (dataset_parser_on_integers (B "F.F") (B "00") None);
      [reflexivity | reflexivity | exact I].
Defined.

(** ** Data Block Reader: how a read can end *)



